(** * The facility ranker of [src/components/TriageMapRouter.jsx]

    A shallow embedding of the search policy, the distance and scoring
    functions, the two-phase ranking pipeline and the directions request of
    the React component [TriageMapRouter], followed by the properties the
    specification states about them.

    JavaScript numbers are IEEE 754 binary64 values; they are modelled by
    Rocq's primitive floats, whose operations are the same binary64
    operations. [Math.sin], [Math.cos] and [Math.atan2] are left to the engine
    by ECMAScript (implementation-approximated), so they are the fields of a
    class [MathObject]. *)

From Stdlib Require Import ZArith List String Ascii Bool Lia Floats Permutation Sorted.
Import ListNotations.

(** ** JavaScript primitives used by the component *)

Module JS.

Local Open Scope float_scope.

(** [Math.PI], the binary64 value nearest to pi (3.141592653589793). *)
Definition PI : float := 0x1.921fb54442d18p+1.

(** [ToBoolean] on a number: [+0], [-0] and [NaN] are falsy. *)
Definition ToBoolean_number (x : float) : bool :=
  negb (is_zero x || is_nan x).

(** [x || d] where [x] is a number or [undefined]. *)
Definition number_or (x : option float) (d : float) : float :=
  match x with
  | Some v => if ToBoolean_number v then v else d
  | None => d
  end.

(** [ToBoolean] on a string or [undefined]: the empty string is falsy. *)
Definition ToBoolean_string (x : option string) : bool :=
  match x with
  | Some s => negb (String.eqb s EmptyString)
  | None => false
  end.

(** [x || null] where [x] is a string or [undefined]. *)
Definition string_or_null (x : option string) : option string :=
  if ToBoolean_string x then x else None.

(** [Math.max] on two numbers: [NaN] if either is, and [+0] above [-0]. *)
Definition Math_max (x y : float) : float :=
  if is_nan x || is_nan y then nan
  else if x <? y then y
  else if y <? x then x
  else if is_zero x then x + y
  else x.

(** The engine's approximations of the transcendental functions. *)
Class MathObject : Set := {
  Math_sin : float -> float;
  Math_cos : float -> float;
  Math_atan2 : float -> float -> float
}.

(** [Array.prototype.join] on an array of strings and [undefined]s. *)
Definition join (sep : string) (l : list (option string)) : string :=
  String.concat sep (map (fun x => match x with Some s => s | None => EmptyString end) l).

(** [Array.prototype.slice(0, n)]. *)
Definition slice0 {A : Type} (n : nat) (l : list A) : list A := firstn n l.

(** [Array.prototype.map] with the index the callback receives. *)
Fixpoint mapi_from {A B : Type} (i : nat) (f : nat -> A -> B) (l : list A) : list B :=
  match l with
  | [] => []
  | x :: l' => f i x :: mapi_from (S i) f l'
  end.

Definition mapi {A B : Type} (f : nat -> A -> B) (l : list A) : list B :=
  mapi_from 0 f l.

(** [Array.prototype.sort(comparefn)]. ECMAScript reads the comparator's
    result [v] through SortCompare ([NaN] counts as [+0]) and requires the
    sort to be stable; the model is the stable insertion sort, in which an
    element moves past a neighbour only when the comparator says it sorts
    after it ([v > 0]). *)
Section ArraySort.
Context {A : Type} (comparefn : A -> A -> float).

Definition sorts_after (x y : A) : bool := 0 <? comparefn x y.

Fixpoint insert (x : A) (l : list A) : list A :=
  match l with
  | [] => [x]
  | y :: l' => if sorts_after x y then y :: insert x l' else x :: l
  end.

Fixpoint Array_sort (l : list A) : list A :=
  match l with
  | [] => []
  | x :: l' => insert x (Array_sort l')
  end.
End ArraySort.

(** A promise once settled, and [Promise.all] over settled promises. *)
Inductive Settled (A : Type) : Type :=
| Fulfilled (a : A)
| Rejected.
Arguments Fulfilled {A} a.
Arguments Rejected {A}.

Fixpoint Promise_all {A : Type} (l : list (Settled A)) : Settled (list A) :=
  match l with
  | [] => Fulfilled []
  | Rejected :: _ => Rejected
  | Fulfilled a :: l' =>
      match Promise_all l' with
      | Fulfilled r => Fulfilled (a :: r)
      | Rejected => Rejected
      end
  end.

End JS.

(** ** Data model *)

Record LatLng : Set := { lat : float; lng : float }.

(** A candidate of the places search, with the fields the component reads or
    overwrites. *)
Record PlaceResult : Set := {
  place_id : string;
  name : string;
  geometry : option LatLng;
  rating : option float;
  user_ratings_total : option float;
  vicinity : option string;
  formatted_phone_number : option string;
  business_status : option string
}.

(** [{ ...place, distance, score, isOpen }]; [isOpen] is [true], [false], or
    [None] for [null] and [undefined]. *)
Record ScoredPlace : Set := {
  place : PlaceResult;
  distance : float;
  score : float;
  isOpen : option bool
}.

Record TriageResult : Set := {
  urgency : option string;
  department : option string;
  specialist : option string;
  search_keywords : option (list string)
}.

Inductive PlacesServiceStatus : Set :=
| OK | ZERO_RESULTS | INVALID_REQUEST | OVER_QUERY_LIMIT
| REQUEST_DENIED | NOT_FOUND | UNKNOWN_ERROR.

(** What [textSearch] and [nearbySearch] hand to their callback. *)
Record SearchResponse : Set := {
  search_results : option (list PlaceResult);
  search_status : PlacesServiceStatus
}.

(** The outcome of calling [opening_hours.isOpen()]. *)
Inductive IsOpenCall : Set :=
| Returns (v : option bool)
| Throws.

(** [details.opening_hours]; [isOpen_method] is [None] when the property is
    not a function. *)
Record OpeningHours : Set := { isOpen_method : option IsOpenCall }.

Record PlaceDetails : Set := {
  opening_hours : option OpeningHours;
  details_phone : option string;
  details_business_status : option string
}.

(** What [getDetails] hands to its callback. *)
Record DetailsResponse : Set := {
  details : option PlaceDetails;
  details_status : PlacesServiceStatus
}.

Inductive DirectionsStatus : Set :=
| DIRECTIONS_OK | DIRECTIONS_NOT_FOUND | DIRECTIONS_ZERO_RESULTS
| DIRECTIONS_REQUEST_DENIED | DIRECTIONS_UNKNOWN_ERROR.

Record DirectionsStep : Set := { instructions : string; step_distance : string }.

Record DirectionsLeg : Set := {
  leg_distance : string;
  leg_duration : string;
  leg_steps : list DirectionsStep
}.

Record DirectionsRoute : Set := { legs : list DirectionsLeg }.

Record DirectionsResult : Set := { routes : list DirectionsRoute }.

Record RouteStep : Set := { instruction : string; step_distance_text : string }.

Record RouteInfo : Set := {
  route_distance : string;
  route_duration : string;
  route_steps : list RouteStep
}.

(** A numbered marker on the map. *)
Record Marker : Set := {
  marker_position : option LatLng;
  marker_title : string;
  marker_label : nat
}.

(** The component's state: the React state variables and the refs. *)
Record State : Set := {
  userLocation : option LatLng;
  places : list ScoredPlace;
  loading : bool;
  error : option string;
  selectedPlace : option ScoredPlace;
  directions : option DirectionsResult;
  routeInfo : option RouteInfo;
  mapInstance : bool;
  markers : list Marker;
  directionsRenderer : option (option DirectionsResult)
}.

(** How a handler ends: normally, or with a [TypeError] thrown. *)
Inductive Completion : Set := Normal | TypeError.

(** ** State updates *)

Definition set_places (v : list ScoredPlace) (s : State) : State :=
  {| userLocation := userLocation s; places := v; loading := loading s;
     error := error s; selectedPlace := selectedPlace s;
     directions := directions s; routeInfo := routeInfo s;
     mapInstance := mapInstance s; markers := markers s;
     directionsRenderer := directionsRenderer s |}.

Definition set_loading (v : bool) (s : State) : State :=
  {| userLocation := userLocation s; places := places s; loading := v;
     error := error s; selectedPlace := selectedPlace s;
     directions := directions s; routeInfo := routeInfo s;
     mapInstance := mapInstance s; markers := markers s;
     directionsRenderer := directionsRenderer s |}.

Definition set_error (v : option string) (s : State) : State :=
  {| userLocation := userLocation s; places := places s; loading := loading s;
     error := v; selectedPlace := selectedPlace s;
     directions := directions s; routeInfo := routeInfo s;
     mapInstance := mapInstance s; markers := markers s;
     directionsRenderer := directionsRenderer s |}.

Definition set_selectedPlace (v : option ScoredPlace) (s : State) : State :=
  {| userLocation := userLocation s; places := places s; loading := loading s;
     error := error s; selectedPlace := v;
     directions := directions s; routeInfo := routeInfo s;
     mapInstance := mapInstance s; markers := markers s;
     directionsRenderer := directionsRenderer s |}.

Definition set_directions (v : option DirectionsResult) (s : State) : State :=
  {| userLocation := userLocation s; places := places s; loading := loading s;
     error := error s; selectedPlace := selectedPlace s;
     directions := v; routeInfo := routeInfo s;
     mapInstance := mapInstance s; markers := markers s;
     directionsRenderer := directionsRenderer s |}.

Definition set_routeInfo (v : option RouteInfo) (s : State) : State :=
  {| userLocation := userLocation s; places := places s; loading := loading s;
     error := error s; selectedPlace := selectedPlace s;
     directions := directions s; routeInfo := v;
     mapInstance := mapInstance s; markers := markers s;
     directionsRenderer := directionsRenderer s |}.

Definition set_mapInstance (v : bool) (s : State) : State :=
  {| userLocation := userLocation s; places := places s; loading := loading s;
     error := error s; selectedPlace := selectedPlace s;
     directions := directions s; routeInfo := routeInfo s;
     mapInstance := v; markers := markers s;
     directionsRenderer := directionsRenderer s |}.

Definition set_markers (v : list Marker) (s : State) : State :=
  {| userLocation := userLocation s; places := places s; loading := loading s;
     error := error s; selectedPlace := selectedPlace s;
     directions := directions s; routeInfo := routeInfo s;
     mapInstance := mapInstance s; markers := v;
     directionsRenderer := directionsRenderer s |}.

Definition set_directionsRenderer (v : option (option DirectionsResult)) (s : State) : State :=
  {| userLocation := userLocation s; places := places s; loading := loading s;
     error := error s; selectedPlace := selectedPlace s;
     directions := directions s; routeInfo := routeInfo s;
     mapInstance := mapInstance s; markers := markers s;
     directionsRenderer := v |}.

Definition set_userLocation (v : option LatLng) (s : State) : State :=
  {| userLocation := v; places := places s; loading := loading s;
     error := error s; selectedPlace := selectedPlace s;
     directions := directions s; routeInfo := routeInfo s;
     mapInstance := mapInstance s; markers := markers s;
     directionsRenderer := directionsRenderer s |}.

(** ** The browser and the page *)

(** How the Google Maps script comes to be there: [window.google.maps] is
    already present, the script element fires [onload], or it fires
    [onerror]. *)
Inductive ScriptLoad : Set := MapsPresent | ScriptLoads | ScriptFails.

(** What the browser's geolocation does: [navigator.geolocation] is missing,
    the success callback runs with coordinates, or the error callback runs
    (denial, failure or the 5 second timeout). *)
Inductive GeolocationAnswer : Set :=
| NoGeolocation
| Position (latitude longitude : float)
| PositionError.

Record Browser : Set := {
  GOOGLE_MAPS_KEY : option string;
  script : ScriptLoad;
  geolocation : GeolocationAnswer
}.

(** A promise that resolves or rejects with [new Error(message)]. *)
Inductive Outcome (A : Type) : Type :=
| Resolves (a : A)
| Rejects (message : string).
Arguments Resolves {A} a.
Arguments Rejects {A} message.

(** [location.state] of the router, as [maps.jsx] reads it. *)
Record LocationState : Set := { state_triageResult : option TriageResult }.

(** The pair of class names [getUrgencyColor] returns. *)
Record UrgencyColor : Set := { bg : string; ring : string }.

(** The panels of the screen: for each conditional block of the JSX, whether
    it is rendered and with what. *)
Record Screen : Set := {
  emergencyBanner : bool;
  urgencyColors : UrgencyColor;
  loadingPanel : bool;
  errorPanel : option string;
  resultsPanel : list ScoredPlace;
  directionsPanel : option (option string * RouteInfo)
}.

Inductive Rendered : Set :=
| NoTriagePrompt
| MapScreen (s : Screen).

(** ** The external services *)

Record TextSearchRequest : Set := {
  request_location : LatLng;
  request_radius : Z;
  request_query : string
}.

Record NearbySearchRequest : Set := {
  nearby_location : LatLng;
  nearby_radius : Z;
  nearby_type : string
}.

(** The places service. [getDetails] receives the position of the call among
    the lookups of one search and the place identifier, so that two lookups
    may answer differently. *)
Record PlacesService : Set := {
  textSearch : TextSearchRequest -> SearchResponse;
  nearbySearch : NearbySearchRequest -> SearchResponse;
  getDetails : nat -> string -> DetailsResponse
}.

Record DirectionsRequest : Set := {
  origin : LatLng;
  destination : LatLng
}.

Record DirectionsResponse : Set := {
  route_result : option DirectionsResult;
  route_status : DirectionsStatus
}.

(** ** The component *)

Module TriageMapRouter.
Import JS.
Local Open Scope float_scope.

(** [triageResult?.urgency] *)
Definition urgency_of (triageResult : option TriageResult) : option string :=
  match triageResult with
  | Some t => urgency t
  | None => None
  end.

(** [triageResult?.urgency === 'emergency'] *)
Definition is_emergency (triageResult : option TriageResult) : bool :=
  match urgency_of triageResult with
  | Some u => String.eqb u "emergency"
  | None => false
  end.

Definition getSearchRadius (triageResult : option TriageResult) : Z :=
  match urgency_of triageResult with
  | Some u =>
      if String.eqb u "emergency" then 20000%Z
      else if String.eqb u "urgent" then 15000%Z
      else 10000%Z
  | None => 10000%Z
  end.

Section Haversine.
Context {M : MathObject}.

Definition calculateDistance (lat1 lng1 lat2 lng2 : float) : float :=
  let R := 6371 in
  let dLat := (lat2 - lat1) * PI / 180 in
  let dLng := (lng2 - lng1) * PI / 180 in
  let a := Math_sin (dLat / 2) * Math_sin (dLat / 2) +
           Math_cos (lat1 * PI / 180) * Math_cos (lat2 * PI / 180) *
           Math_sin (dLng / 2) * Math_sin (dLng / 2) in
  let c := 2 * Math_atan2 (sqrt a) (sqrt (1 - a)) in
  R * c.
End Haversine.

(** [0.1] is the binary64 value [0x1.999999999999ap-4]. *)
Definition calculateScore (place : PlaceResult) (distanceKm : float) : float :=
  let distanceScore := 5 / Math_max distanceKm 0x1.999999999999ap-4 in
  let ratingScore := number_or (rating place) 3 in
  let popularityBonus :=
    if 50 <? number_or (user_ratings_total place) 0 then 1 else 0 in
  distanceScore + ratingScore + popularityBonus.

(** [[...keywords, triageResult.department, 'hospital'].filter(Boolean).join(' ')] *)
Definition query (triageResult : TriageResult) : string :=
  let keywords :=
    match search_keywords triageResult with
    | Some k => k
    | None => []
    end in
  join " " (filter ToBoolean_string
              (map Some keywords ++ [department triageResult; Some "hospital"%string])).

(** [query || 'hospital near me'] *)
Definition query_or_fallback (q : string) : string :=
  if ToBoolean_string (Some q) then q else "hospital near me".

Definition request (location : LatLng) (triageResult : TriageResult) : TextSearchRequest :=
  {| request_location := location;
     request_radius := getSearchRadius (Some triageResult);
     request_query := query_or_fallback (query triageResult) |}.

Definition isOpen_true (p : ScoredPlace) : bool :=
  match isOpen p with Some true => true | _ => false end.

Definition isOpen_false (p : ScoredPlace) : bool :=
  match isOpen p with Some false => true | _ => false end.

(** The comparator of the second sort. *)
Definition comparePlaces (triageResult : option TriageResult) (a b : ScoredPlace) : float :=
  if is_emergency triageResult && (isOpen_true a && negb (isOpen_true b)) then -1
  else if is_emergency triageResult && (isOpen_true b && negb (isOpen_true a)) then 1
  else if isOpen_true a && isOpen_false b then -1
  else if isOpen_false a && isOpen_true b then 1
  else score b - score a.

(** The predicate of the [filter] that follows the second sort. *)
Definition keepPlace (triageResult : option TriageResult) (place0 : ScoredPlace) : bool :=
  if is_emergency triageResult then negb (isOpen_false place0) else true.

(** [placesWithDetails.sort(...).filter(...)] *)
Definition filteredPlaces (triageResult : option TriageResult)
           (placesWithDetails : list ScoredPlace) : list ScoredPlace :=
  filter (keepPlace triageResult)
    (Array_sort (comparePlaces triageResult) placesWithDetails).

(** The sort, filter and slice applied to [placesWithDetails]. *)
Definition finalPlaces (triageResult : option TriageResult)
           (placesWithDetails : list ScoredPlace) : list ScoredPlace :=
  slice0 (if is_emergency triageResult then 3 else 5)
    (filteredPlaces triageResult placesWithDetails).

(** The value the details promise of [place] resolves with. *)
Definition resolveDetails (place0 : ScoredPlace) (r : DetailsResponse) : ScoredPlace :=
  match details_status r, details r with
  | OK, Some d =>
      let isOpen0 :=
        match opening_hours d with
        | Some oh =>
            match isOpen_method oh with
            | Some (Returns v) => v
            | Some Throws => None
            | None => None
            end
        | None => None
        end in
      {| place :=
           {| place_id := place_id (place place0);
              name := name (place place0);
              geometry := geometry (place place0);
              rating := rating (place place0);
              user_ratings_total := user_ratings_total (place place0);
              vicinity := vicinity (place place0);
              formatted_phone_number := string_or_null (details_phone d);
              business_status := details_business_status d |};
         distance := distance place0;
         score := score place0;
         isOpen := isOpen0 |}
  | _, _ =>
      {| place := place place0;
         distance := distance place0;
         score := score place0;
         isOpen := None |}
  end.

Definition markerOf (index : nat) (p : ScoredPlace) : Marker :=
  {| marker_position := geometry (place p);
     marker_title := name (place p);
     marker_label := index + 1 |}.

Section Pipeline.
Context {M : MathObject}.

(** The body of [.filter(p => p.geometry?.location).map(place => ...)] on
    one candidate: nothing when the location is missing. *)
Definition scorePlace (userLoc : LatLng) (p : PlaceResult) : list ScoredPlace :=
  match geometry p with
  | Some loc =>
      let distance0 := calculateDistance (lat userLoc) (lng userLoc) (lat loc) (lng loc) in
      [ {| place := p; distance := distance0;
           score := calculateScore p distance0; isOpen := None |} ]
  | None => []
  end.

Definition initialScored (userLoc : LatLng) (triageResult : option TriageResult)
           (results : list PlaceResult) : list ScoredPlace :=
  slice0 (if is_emergency triageResult then 6 else 8)
    (Array_sort (fun a b => score b - score a)
       (flat_map (scorePlace userLoc) results)).

Definition detailsPromises (service : PlacesService) (initial : list ScoredPlace)
  : list (Settled ScoredPlace) :=
  mapi (fun i place0 =>
          Fulfilled (resolveDetails place0 (getDetails service i (place_id (place place0)))))
       initial.

(** [processResults(results, map)], with the [then] callback run when
    [Promise.all] fulfils: one search from its results to its list, with
    no other search in between (the two turns are told apart below). *)
Definition processResults (userLoc : LatLng) (triageResult : option TriageResult)
           (service : PlacesService) (results : list PlaceResult) (st : State) : State :=
  let st1 := set_markers [] st in
  match Promise_all (detailsPromises service (initialScored userLoc triageResult results)) with
  | Fulfilled placesWithDetails =>
      let final := finalPlaces triageResult placesWithDetails in
      set_loading false (set_markers (mapi markerOf final) (set_places final st1))
  | Rejected => st1
  end.

(** The effect that creates the map and searches, run with the Google
    Maps script loaded or not and the map element mounted or not. *)
Definition searchEffect (mapsLoaded mapMounted : bool)
           (triageResult : option TriageResult) (service : PlacesService)
           (st : State) : State :=
  match userLocation st, triageResult with
  | Some userLoc, Some t =>
      if mapsLoaded && mapMounted then
        let st1 := set_mapInstance true st in
        let radius := getSearchRadius triageResult in
        let text := textSearch service (request userLoc t) in
        match search_status text, search_results text with
        | OK, Some results => processResults userLoc triageResult service results st1
        | _, _ =>
            let nearby :=
              nearbySearch service
                {| nearby_location := userLoc; nearby_radius := radius;
                   nearby_type := "hospital" |} in
            match search_status nearby, search_results nearby with
            | OK, Some nearbyResults =>
                processResults userLoc triageResult service nearbyResults st1
            | _, _ =>
                set_loading false (set_error (Some "No hospitals found nearby"%string) st1)
            end
        end
      else st
  | _, _ => st
  end.
End Pipeline.

(** *** The two turns of a search

    [processResults] above runs a search to its end in one step.  The
    event loop runs it in two turns: the body of [processResults] when the
    search service delivers its results, and the [then] callback of
    [Promise.all(detailsPromises)] once every detail lookup has answered.
    The effect has no cleanup and runs again when the triage result
    changes, so turns of two searches can alternate. *)

(** The first turn: the markers of [markersRef.current] are taken off the
    map and the ref is emptied; the lookups are sent. *)
Definition clearMarkers (st : State) : State := set_markers [] st.

(** The [then] callback: the final list is stored and one marker for each
    of its entries is pushed onto whatever [markersRef.current] holds by
    then. *)
Definition showPlaces (triageResult : option TriageResult)
           (placesWithDetails : list ScoredPlace) (st : State) : State :=
  let final := finalPlaces triageResult placesWithDetails in
  set_loading false
    (set_markers (markers st ++ mapi markerOf final) (set_places final st)).

(** One run of the effect: what its closure holds ([userLocation],
    [triageResult], the places service of its map) and the results its
    search delivers. *)
Record SearchRun : Type := {
  run_location : LatLng;
  run_triage : option TriageResult;
  run_service : PlacesService;
  run_results : list PlaceResult
}.

Inductive Turn : Type :=
| ResultsDelivered (r : SearchRun)
| DetailsSettled (r : SearchRun).

Section EventLoop.
Context {M : MathObject}.

Definition turn (t : Turn) (st : State) : State :=
  match t with
  | ResultsDelivered _ => clearMarkers st
  | DetailsSettled r =>
      match Promise_all
              (detailsPromises (run_service r)
                 (initialScored (run_location r) (run_triage r) (run_results r))) with
      | Fulfilled placesWithDetails => showPlaces (run_triage r) placesWithDetails st
      | Rejected => st
      end
  end.

Definition runTurns (turns : list Turn) (st : State) : State :=
  fold_left (fun st0 t => turn t st0) turns st.
End EventLoop.

(** [result.routes[0].legs[0]] turned into route info; [None] where the
    handler throws on a missing route or leg. *)
Definition extractRouteInfo (result : option DirectionsResult) : option RouteInfo :=
  match result with
  | Some r =>
      match routes r with
      | route :: _ =>
          match legs route with
          | leg :: _ =>
              Some {| route_distance := leg_distance leg;
                      route_duration := leg_duration leg;
                      route_steps :=
                        map (fun step => {| instruction := instructions step;
                                            step_distance_text := step_distance step |})
                            (leg_steps leg) |}
          | [] => None
          end
      | [] => None
      end
  | None => None
  end.

(** [showDirections(place)] with the callback of [directionsService.route]
    run on the service's answer.  A place without [geometry] makes
    [place.geometry.location] throw; no listed place is without one. *)
Definition showDirections (route : DirectionsRequest -> DirectionsResponse)
           (place0 : ScoredPlace) (st : State) : State * Completion :=
  match mapInstance st, userLocation st with
  | true, Some userLoc =>
      let st1 :=
        match directionsRenderer st with
        | None => set_directionsRenderer (Some None) st
        | Some _ => st
        end in
      match geometry (place place0) with
      | None => (st1, TypeError)
      | Some dest =>
          let answer := route {| origin := userLoc; destination := dest |} in
          match route_status answer with
          | DIRECTIONS_OK =>
              let st2 :=
                set_selectedPlace (Some place0)
                  (set_directions (route_result answer)
                     (set_directionsRenderer (Some (route_result answer)) st1)) in
              match extractRouteInfo (route_result answer) with
              | Some info => (set_routeInfo (Some info) st2, Normal)
              | None => (st2, TypeError)
              end
          | _ => (st1, Normal)
          end
      end
  | _, _ => (st, Normal)
  end.

Definition clearDirections (st : State) : State :=
  let st1 :=
    match directionsRenderer st with
    | Some _ => set_directionsRenderer (Some (Some {| routes := [] |})) st
    | None => st
    end in
  set_routeInfo None (set_directions None st1).

Definition getUrgencyColor (triageResult : option TriageResult) : UrgencyColor :=
  match urgency_of triageResult with
  | Some u =>
      if String.eqb u "emergency" then {| bg := "bg-red-500"; ring := "ring-red-500/30" |}
      else if String.eqb u "urgent" then {| bg := "bg-orange-500"; ring := "ring-orange-500/30" |}
      else {| bg := "bg-green-500"; ring := "ring-green-500/30" |}
  | None => {| bg := "bg-green-500"; ring := "ring-green-500/30" |}
  end.

(** [{ lat: 28.6139, lng: 77.2090 }], the binary64 values of the literals. *)
Definition defaultLocation : LatLng :=
  {| lat := 0x1.c9d288ce703bp+4; lng := 0x1.34d604189374cp+6 |}.

(** The value the promise of [getUserLocation] resolves with; it never
    rejects. *)
Definition getUserLocation (g : GeolocationAnswer) : LatLng :=
  match g with
  | NoGeolocation => defaultLocation
  | Position latitude longitude => {| lat := latitude; lng := longitude |}
  | PositionError => defaultLocation
  end.

Definition loadGoogleMaps (l : ScriptLoad) : Outcome unit :=
  match l with
  | MapsPresent => Resolves tt
  | ScriptLoads => Resolves tt
  | ScriptFails => Rejects "Failed to load Google Maps"
  end.

(** The first effect: the key check, then [init] run to its end. *)
Definition initEffect (browser : Browser) (st : State) : State :=
  if negb (ToBoolean_string (GOOGLE_MAPS_KEY browser)) then
    set_loading false (set_error (Some "Google Maps API key is not configured"%string) st)
  else
    match loadGoogleMaps (script browser) with
    | Resolves _ => set_userLocation (Some (getUserLocation (geolocation browser))) st
    | Rejects message => set_loading false (set_error (Some message) st)
    end.

(** The click handlers of a list entry and of a marker, as far as the state
    goes: [setSelectedPlace(place)]. *)
Definition selectPlace (place0 : ScoredPlace) (st : State) : State :=
  set_selectedPlace (Some place0) st.

(** The state the hooks start from. *)
Definition initialState : State :=
  {| userLocation := None; places := []; loading := true; error := None;
     selectedPlace := None; directions := None; routeInfo := None;
     mapInstance := false; markers := []; directionsRenderer := None |}.

(** What the component returns: the prompt when there is no triage result,
    otherwise the screen with its conditional panels. The directions panel
    carries the name in its heading, [selectedPlace?.name]. *)
Definition render (triageResult : option TriageResult) (st : State) : Rendered :=
  match triageResult with
  | None => NoTriagePrompt
  | Some _ =>
      MapScreen
        {| emergencyBanner := is_emergency triageResult;
           urgencyColors := getUrgencyColor triageResult;
           loadingPanel := loading st;
           errorPanel :=
             if ToBoolean_string (error st) && negb (loading st) then error st else None;
           resultsPanel :=
             if negb (loading st) && Nat.ltb 0 (List.length (places st))
             then places st else [];
           directionsPanel :=
             match routeInfo st with
             | Some info =>
                 Some (match selectedPlace st with
                       | Some p => Some (name (place p))
                       | None => None
                       end, info)
             | None => None
             end |}
  end.

(** [maps.jsx]: the triage result handed to the component,
    [location.state?.triageResult]. *)
Definition Maps (locationState : option LocationState) : option TriageResult :=
  match locationState with
  | Some st => state_triageResult st
  | None => None
  end.

End TriageMapRouter.

(** * Terms of the statements

    The definitions the properties below are stated with: the
    specification's wording of the query, the score and the distance, the
    predicates on the services' answers, and the laws asked of the engine's
    functions. *)

Module Spec.
Import JS TriageMapRouter.
Local Open Scope string_scope.

Definition nonempty (s : string) : bool := negb (String.eqb s "").

(** The query in the specification's words: the non-empty keywords, then
    the department when it is non-empty, then the literal term, joined by
    single spaces. *)
Definition composedQuery (keywords : list string) (dept : option string) : string :=
  String.concat " "
    (filter nonempty keywords
     ++ match dept with
        | Some d => if nonempty d then [d] else []
        | None => []
        end
     ++ ["hospital"]).

Definition keywords_of (t : TriageResult) : list string :=
  match search_keywords t with
  | Some k => k
  | None => []
  end.

Definition unwrap (x : option string) : string :=
  match x with Some s => s | None => "" end.

(** The result cap of the second phase. *)
Definition resultCap (tr : option TriageResult) : nat :=
  if is_emergency tr then 3 else 5.

(** The enriched candidates the [then] callback receives. *)
Definition placesWithDetails {M : MathObject} (userLoc : LatLng)
           (tr : option TriageResult) (service : PlacesService)
           (results : list PlaceResult) : list ScoredPlace :=
  mapi (fun i p => resolveDetails p (getDetails service i (place_id (place p))))
       (initialScored userLoc tr results).

(** The lookup answered "is it open now" with [b]. *)
Definition answers (r : DetailsResponse) (b : bool) : Prop :=
  details_status r = OK /\
  exists d oh, details r = Some d /\ opening_hours d = Some oh /\
               isOpen_method oh = Some (Returns (Some b)).

(** The callback's test [status === OK && results]. *)
Definition has_result_set (r : SearchResponse) : bool :=
  match search_status r, search_results r with
  | OK, Some _ => true
  | _, _ => false
  end.

Definition nearbyRequest (userLoc : LatLng) (tr : option TriageResult) : NearbySearchRequest :=
  {| nearby_location := userLoc; nearby_radius := getSearchRadius tr;
     nearby_type := "hospital" |}.

(** The request [showDirections] sends for [p] from state [st], if any. *)
Definition requestFor (st : State) (p : ScoredPlace) : option DirectionsRequest :=
  match mapInstance st, userLocation st, geometry (place p) with
  | true, Some userLoc, Some dest => Some {| origin := userLoc; destination := dest |}
  | _, _, _ => None
  end.

(** The open status is known. *)
Definition known_status (p : ScoredPlace) : bool :=
  match isOpen p with Some _ => true | None => false end.

(** [l] is the elements of the class [first] followed by the others. *)
Definition split_by_class {A : Type} (first : A -> bool) (l : list A) : Prop :=
  exists l1 l2, l = (l1 ++ l2)%list /\
                Forall (fun x => first x = true) l1 /\
                Forall (fun x => first x = false) l2.

Local Close Scope string_scope.
Local Open Scope Z_scope.

(** [x] is a zero or a finite number of sign [s] below [2 ^ B] in magnitude. *)
Definition within (s : bool) (B : Z) (x : spec_float) : Prop :=
  match x with
  | S754_zero s' => s' = s
  | S754_finite s' m e => s' = s /\ Zdigits2 (Zpos m) + e <= B
  | _ => False
  end.

Local Close Scope Z_scope.
Local Open Scope float_scope.

(** What the results below ask of the engine's functions. ECMAScript fixes
    [Math.sin(+0) = +0] and [Math.atan2(+0, 1) = +0]; that the sine is odd and
    that the cosine of a finite number lies in [[-1, 1]] is asked of the
    implementation. *)
Class MathLaws (M : MathObject) : Prop := {
  Math_sin_odd : forall x, Math_sin (- x) = - Math_sin x;
  Math_sin_zero : Math_sin 0 = 0;
  Math_cos_range : forall x, is_finite x = true -> (abs (Math_cos x) <=? 1) = true;
  Math_atan2_zero : Math_atan2 0 1 = 0
}.

(** Degrees to radians. *)
Definition radians (degrees : float) : float := degrees * PI / 180.

(** The haversine formula in the specification's words:
    [a = sin^2(dlat/2) + cos(lat1) cos(lat2) sin^2(dlng/2)] with the angles in
    radians, and the distance [2 R atan2(sqrt a, sqrt (1 - a))] with
    [R = 6371], the operations being those of binary64 in the order the
    source applies them. *)
Definition haversine_a {M : MathObject} (lat1 lng1 lat2 lng2 : float) : float :=
  Math_sin (radians (lat2 - lat1) / 2) * Math_sin (radians (lat2 - lat1) / 2) +
  Math_cos (radians lat1) * Math_cos (radians lat2) *
  Math_sin (radians (lng2 - lng1) / 2) * Math_sin (radians (lng2 - lng1) / 2).

Definition haversine {M : MathObject} (lat1 lng1 lat2 lng2 : float) : float :=
  6371 * (2 * Math_atan2 (sqrt (haversine_a lat1 lng1 lat2 lng2))
                         (sqrt (1 - haversine_a lat1 lng1 lat2 lng2))).

(** A latitude within 90 degrees and a longitude within 180 degrees. *)
Definition valid_coordinate (p : LatLng) : bool :=
  (abs (lat p) <=? 90) && (abs (lng p) <=? 180).

(** What the engine returns at the arguments the pair (2.5, 0),
    (-2.5, 180) sends to it, namely the binary64 numbers nearest to the
    exact values: 1 for the sine of [0x1.921fb54442d18p+0]
    (1.5707963267948966, half of the binary64 pi), and 0.043619387365336 and
    0.9990482215818578 for the sine and the cosine of
    [0x1.657184ae74487p-5] (0.04363323129985824, the radians of 2.5
    degrees, reached as [2.5 * PI / 180] and as [5 * PI / 180 / 2]); and
    the rule of ECMAScript that [Math.atan2] of a [NaN] is [NaN]. *)
Class AntipodalValues (M : MathObject) : Prop := {
  Math_sin_half_pi : Math_sin 0x1.921fb54442d18p+0 = 1;
  Math_sin_small : Math_sin 0x1.657184ae74487p-5 = 0x1.65547c4694e11p-5;
  Math_cos_small : Math_cos 0x1.657184ae74487p-5 = 0x1.ff833f9da45f7p-1;
  Math_cos_small_opp : Math_cos (-0x1.657184ae74487p-5) = 0x1.ff833f9da45f7p-1;
  Math_atan2_nan : forall y, Math_atan2 y nan = nan
}.

(** The binary64 value of the literal [0.1]. *)
Definition tenth : float := 0x1.999999999999ap-4.

(** The score in the words of the specification: the rating whenever one is
    present, 3 otherwise, and a bonus of 1 above 50 reviews. *)
Definition claimedScore (p : PlaceResult) (distanceKm : float) : float :=
  5 / Math_max distanceKm tenth
  + match rating p with Some r => r | None => 3 end
  + match user_ratings_total p with
    | Some n => if 50 <? n then 1 else 0
    | None => 0
    end.

(** The rating term the code computes: a rating of [0] (or [NaN]) is falsy
    and counts as no rating. *)
Definition ratingOrDefault (p : PlaceResult) : float :=
  match rating p with
  | Some r => if is_zero r || is_nan r then 3 else r
  | None => 3
  end.

Definition popularityBonus (p : PlaceResult) : float :=
  match user_ratings_total p with
  | Some n => if 50 <? n then 1 else 0
  | None => 0
  end.

Local Close Scope float_scope.
Local Open Scope string_scope.

(** The candidate carries a location. *)
Definition hasLocation (p : PlaceResult) : bool :=
  match geometry p with Some _ => true | None => false end.

(** The search run to its end without another one in between, as
    [processResults] has it. *)
Definition alone {M : MathObject} (r : SearchRun) (st : State) : State :=
  processResults (run_location r) (run_triage r) (run_service r) (run_results r) st.

(** The search has a detail lookup to wait for.  Without one,
    [Promise.all([])] is fulfilled at once and the [then] callback runs in
    the turn of the results, before any other callback. *)
Definition awaitsLookups {M : MathObject} (r : SearchRun) : bool :=
  match initialScored (run_location r) (run_triage r) (run_results r) with
  | [] => false
  | _ :: _ => true
  end.

(** Two searches whose results both arrive before the lookups of either
    have all answered, the lookups of the first settling first or last. *)
Definition overlapped (r1 r2 : SearchRun) : list Turn :=
  [ResultsDelivered r1; ResultsDelivered r2; DetailsSettled r1; DetailsSettled r2].

Definition overtaken (r1 r2 : SearchRun) : list Turn :=
  [ResultsDelivered r1; ResultsDelivered r2; DetailsSettled r2; DetailsSettled r1].

(** The cap of the first phase. *)
Definition preFilterCap (tr : option TriageResult) : nat :=
  if is_emergency tr then 6 else 8.

(** The result array of a search answer that has one. *)
Definition results_of (r : SearchResponse) : list PlaceResult :=
  match search_results r with
  | Some l => l
  | None => []
  end.

(** The state once both effects have run on a freshly mounted component: the
    map element is there exactly when a triage result is, and the script is
    there unless it failed to load. *)
Definition firstMount {M : MathObject} (browser : Browser)
           (tr : option TriageResult) (service : PlacesService) : State :=
  searchEffect
    (match script browser with ScriptFails => false | _ => true end)
    (match tr with Some _ => true | None => false end)
    tr service (initEffect browser initialState).

(** The browser lets the first effect reach [setUserLocation]. *)
Definition initialises (browser : Browser) : bool :=
  ToBoolean_string (GOOGLE_MAPS_KEY browser) &&
  match script browser with ScriptFails => false | _ => true end.

(** Every detail lookup of the service comes back without data. *)
Definition lookups_fail (service : PlacesService) : Prop :=
  forall i id, details_status (getDetails service i id) <> OK \/
               details (getDetails service i id) = None.

(** Every detail lookup of the service answers "closed". *)
Definition all_closed (service : PlacesService) : Prop :=
  forall i id, answers (getDetails service i id) false.

(** The identifiers of a list of facilities, in order. *)
Definition ids (l : list ScoredPlace) : list string :=
  map (fun p => place_id (place p)) l.

(** The state in which the first search runs. *)
Definition searchingState (browser : Browser) : State :=
  set_mapInstance true
    (set_userLocation (Some (getUserLocation (geolocation browser))) initialState).

(** The route info read off a leg. *)
Definition infoOf (leg : DirectionsLeg) : RouteInfo :=
  {| route_distance := leg_distance leg;
     route_duration := leg_duration leg;
     route_steps :=
       map (fun step => {| instruction := instructions step;
                           step_distance_text := step_distance step |})
           (leg_steps leg) |}.

End Spec.

(** * Sample data

    Concrete inputs on which the properties are run. The engine's functions
    are replaced by their small-angle approximations. *)

Module Examples.
Import JS TriageMapRouter.
Local Open Scope string_scope.
Local Open Scope float_scope.

Definition cardiology (sp : option string) (k : option (list string)) : TriageResult :=
  {| urgency := Some "urgent"; department := Some "Cardiology";
     specialist := sp; search_keywords := k |}.

Definition placeRated (r n : option float) : PlaceResult :=
  {| place_id := "p"; name := "p"; geometry := None; rating := r;
     user_ratings_total := n; vicinity := None;
     formatted_phone_number := None; business_status := None |}.

Definition facility (id : string) (score0 : float) (open0 : option bool) : ScoredPlace :=
  {| place := {| place_id := id; name := id;
                 geometry := Some {| lat := 0; lng := 0 |};
                 rating := None; user_ratings_total := None; vicinity := None;
                 formatted_phone_number := None; business_status := None |};
     distance := 1; score := score0; isOpen := open0 |}.

Definition routine : option TriageResult :=
  Some {| urgency := Some "routine"%string; department := None;
          specialist := None; search_keywords := None |}.

Definition emergency : option TriageResult :=
  Some {| urgency := Some "emergency"%string; department := None;
          specialist := None; search_keywords := None |}.

Definition hospital (id : string) : PlaceResult :=
  {| place_id := id; name := id;
     geometry := Some {| lat := 28.5; lng := 77.25 |};
     rating := Some 4; user_ratings_total := Some 10; vicinity := None;
     formatted_phone_number := None; business_status := None |}.

(** A lookup that succeeds, with opening hours answering [b] or without
    opening hours. *)
Definition hours (v : option bool) : DetailsResponse :=
  {| details :=
       Some {| opening_hours :=
                 match v with
                 | Some b => Some {| isOpen_method := Some (Returns (Some b)) |}
                 | None => None
                 end;
               details_phone := None; details_business_status := None |};
     details_status := OK |}.

(** A places service under which "A" is closed, "C" is open and any other
    place has no opening hours. *)
Definition hoursService : PlacesService :=
  {| textSearch := fun _ => {| search_results := None; search_status := ZERO_RESULTS |};
     nearbySearch := fun _ => {| search_results := None; search_status := ZERO_RESULTS |};
     getDetails := fun _ id =>
       if String.eqb id "A" then hours (Some false)
       else if String.eqb id "C" then hours (Some true)
       else hours None |}.

Definition smallAngle : MathObject :=
  {| Math_sin := fun x => x;
     Math_cos := fun _ => 1;
     Math_atan2 := fun y x => y / x |}.

Definition delhi : LatLng := {| lat := 28.5; lng := 77.25 |}.

Definition noida : LatLng := {| lat := 28.625; lng := 77.375 |}.

(** Two positions near the equator, almost opposite each other on the
    globe. *)
Definition gulfOfGuinea : LatLng := {| lat := 2.5; lng := 0 |}.

Definition gilbertIslands : LatLng := {| lat := -2.5; lng := 180 |}.

(** An engine that returns the nearest binary64 numbers at the arguments
    this pair reaches, with either sign, and the small-angle approximations
    elsewhere: [x / c] is 1 or -1 when [x] is [c] or [-c]. *)
Definition tabulated : MathObject :=
  {| Math_sin := fun x =>
       if abs x =? 0x1.921fb54442d18p+0 then x / 0x1.921fb54442d18p+0
       else if abs x =? 0x1.657184ae74487p-5
            then x / 0x1.657184ae74487p-5 * 0x1.65547c4694e11p-5
       else x;
     Math_cos := fun x =>
       if abs x =? 0x1.657184ae74487p-5 then 0x1.ff833f9da45f7p-1 else 1;
     Math_atan2 := fun y x => y / x |}.

(** A state in which the directions to "B" are on display. *)
Definition readyState : State :=
  {| userLocation := Some delhi; places := []; loading := false; error := None;
     selectedPlace := Some (facility "B" 4 (Some true));
     directions := Some {| routes := [] |};
     routeInfo := Some {| route_distance := "2.1 km"; route_duration := "7 mins";
                          route_steps := [] |};
     mapInstance := true; markers := [];
     directionsRenderer := Some (Some {| routes := [] |}) |}.

Definition noRoute (_ : DirectionsRequest) : DirectionsResponse :=
  {| route_result := None; route_status := DIRECTIONS_ZERO_RESULTS |}.

Definition searchedState : State :=
  processResults (M := smallAngle) noida routine hoursService
    [hospital "A"; hospital "B"] readyState.

Definition firstPlace : ScoredPlace :=
  hd (facility "none" 0 None) (places searchedState).

(** A triage result of the default tier and one of the emergency tier. *)
Definition routineResult : TriageResult :=
  {| urgency := Some "routine"; department := Some "General medicine";
     specialist := None; search_keywords := Some ["fever"] |}.

Definition emergencyResult : TriageResult :=
  {| urgency := Some "emergency"; department := Some "Cardiology";
     specialist := None; search_keywords := None |}.

Definition foundThree : SearchResponse :=
  {| search_results := Some [hospital "A"; hospital "B"; hospital "C"];
     search_status := OK |}.

Definition nothingFound : SearchResponse :=
  {| search_results := None; search_status := ZERO_RESULTS |}.

(** Services that find three hospitals by text: one with the lookups of
    [hoursService], one whose lookups all answer closed, one whose lookups
    all fail. *)
Definition searchService : PlacesService :=
  {| textSearch := fun _ => foundThree; nearbySearch := fun _ => nothingFound;
     getDetails := getDetails hoursService |}.

Definition closedService : PlacesService :=
  {| textSearch := fun _ => foundThree; nearbySearch := fun _ => nothingFound;
     getDetails := fun _ _ => hours (Some false) |}.

Definition failingService : PlacesService :=
  {| textSearch := fun _ => foundThree; nearbySearch := fun _ => nothingFound;
     getDetails := fun _ _ => {| details := None; details_status := NOT_FOUND |} |}.

(** Two runs of the search effect, for a routine and for an emergency
    triage result, each with lookups to wait for. *)
Definition routineRun : SearchRun :=
  {| run_location := noida; run_triage := routine; run_service := hoursService;
     run_results := [hospital "A"; hospital "B"] |}.

Definition emergencyRun : SearchRun :=
  {| run_location := noida; run_triage := emergency; run_service := hoursService;
     run_results := [hospital "B"; hospital "C"; hospital "D"] |}.

(** A browser with a key and the script, in which the user denies the
    position. *)
Definition deniedBrowser : Browser :=
  {| GOOGLE_MAPS_KEY := Some "key"; script := ScriptLoads;
     geolocation := PositionError |}.

Definition oneLeg : DirectionsLeg :=
  {| leg_distance := "2.1 km"; leg_duration := "7 mins";
     leg_steps := [ {| instructions := "Head north"; step_distance := "0.4 km" |};
                    {| instructions := "Turn left"; step_distance := "1.7 km" |} ] |}.

Definition oneRoute : DirectionsResult := {| routes := [ {| legs := [oneLeg] |} ] |}.

Definition routeFound (_ : DirectionsRequest) : DirectionsResponse :=
  {| route_result := Some oneRoute; route_status := DIRECTIONS_OK |}.

Definition routeless (_ : DirectionsRequest) : DirectionsResponse :=
  {| route_result := Some {| routes := [] |}; route_status := DIRECTIONS_OK |}.

(** [readyState] after a search that found nothing. *)
Definition erroredState : State :=
  set_error (Some "No hospitals found nearby") readyState.

(** The first facility listed after the first mount in [deniedBrowser]. *)
Definition firstListed : ScoredPlace :=
  hd (facility "none" 0 None)
     (places (Spec.firstMount (M := smallAngle) deniedBrowser (Some routineResult)
                searchService)).

End Examples.

(** * Properties *)

(** ** Lists, sorting and promises *)

Section ListFacts.
Context {A : Type}.

Lemma insert_perm (cmp : A -> A -> float) (x : A) (l : list A) :
  Permutation (x :: l) (JS.insert cmp x l).
Proof.
  induction l as [|y l IH]; simpl.
  - apply Permutation_refl.
  - destruct (JS.sorts_after cmp x y).
    + eapply Permutation_trans; [apply perm_swap|].
      now apply perm_skip.
    + apply Permutation_refl.
Qed.

Lemma Array_sort_perm (cmp : A -> A -> float) (l : list A) :
  Permutation l (JS.Array_sort cmp l).
Proof.
  induction l as [|x l IH]; simpl.
  - constructor.
  - eapply Permutation_trans; [|apply insert_perm].
    now apply perm_skip.
Qed.

Lemma Array_sort_In (cmp : A -> A -> float) (l : list A) (x : A) :
  In x (JS.Array_sort cmp l) <-> In x l.
Proof.
  split; intro H.
  - eapply Permutation_in; [apply Permutation_sym, Array_sort_perm|exact H].
  - eapply Permutation_in; [apply Array_sort_perm|exact H].
Qed.

Lemma Array_sort_length (cmp : A -> A -> float) (l : list A) :
  List.length (JS.Array_sort cmp l) = List.length l.
Proof. symmetry. apply Permutation_length, Array_sort_perm. Qed.

Lemma slice0_length (n : nat) (l : list A) : List.length (JS.slice0 n l) <= n.
Proof. unfold JS.slice0. apply firstn_le_length. Qed.

Lemma slice0_In (n : nat) (l : list A) (x : A) : In x (JS.slice0 n l) -> In x l.
Proof.
  unfold JS.slice0. intro H.
  rewrite <- (firstn_skipn n l). apply in_or_app. now left.
Qed.
End ListFacts.

(** For a consistent comparator (no two elements sort after each other,
    and "does not sort after" is transitive) the model returns a sorted
    list; being stable, it is then the list every conforming engine
    returns. *)
Section ConsistentComparator.
Context {A : Type} (cmp : A -> A -> float).
Hypothesis after_asym :
  forall x y, JS.sorts_after cmp x y = true -> JS.sorts_after cmp y x = false.
Hypothesis not_after_trans :
  forall x y z, JS.sorts_after cmp x y = false -> JS.sorts_after cmp y z = false ->
                JS.sorts_after cmp x z = false.

Lemma insert_sorted (x : A) (l : list A) :
  StronglySorted (fun a b => JS.sorts_after cmp a b = false) l ->
  StronglySorted (fun a b => JS.sorts_after cmp a b = false) (JS.insert cmp x l).
Proof.
  induction l as [|y l IH]; intro S; simpl.
  - constructor; constructor.
  - apply StronglySorted_inv in S. destruct S as [S F].
    destruct (JS.sorts_after cmp x y) eqn:E.
    + constructor; [now apply IH|].
      eapply Permutation_Forall; [apply insert_perm|].
      constructor; [now apply after_asym|exact F].
    + constructor; [now constructor|].
      constructor; [exact E|].
      eapply Forall_impl; [|exact F]. intros z. now apply not_after_trans.
Qed.

Lemma Array_sort_sorted (l : list A) :
  StronglySorted (fun a b => JS.sorts_after cmp a b = false) (JS.Array_sort cmp l).
Proof.
  induction l as [|x l IH]; simpl; [constructor|now apply insert_sorted].
Qed.
End ConsistentComparator.

Section MapiFacts.
Context {A B : Type}.

Lemma mapi_from_In (f : nat -> A -> B) (l : list A) (i : nat) (y : B) :
  In y (JS.mapi_from i f l) -> exists j x, In x l /\ y = f j x.
Proof.
  revert i. induction l as [|x l IH]; simpl; intros i H.
  - contradiction.
  - destruct H as [H|H].
    + exists i, x. split; [now left|now symmetry].
    + destruct (IH _ H) as (j & x' & Hin & E).
      exists j, x'. split; [now right|exact E].
Qed.

Lemma mapi_from_length (f : nat -> A -> B) (l : list A) (i : nat) :
  List.length (JS.mapi_from i f l) = List.length l.
Proof.
  revert i. induction l as [|x l IH]; simpl; intro i; [reflexivity|].
  now rewrite IH.
Qed.

Lemma Promise_all_fulfilled (f : nat -> A -> B) (l : list A) (i : nat) :
  JS.Promise_all (JS.mapi_from i (fun j x => JS.Fulfilled (f j x)) l)
  = JS.Fulfilled (JS.mapi_from i f l).
Proof.
  revert i. induction l as [|x l IH]; simpl; intro i; [reflexivity|].
  now rewrite IH.
Qed.
End MapiFacts.

(** ** Search policy *)

Module Policy.
Import JS TriageMapRouter Spec Examples.
Local Open Scope string_scope.

Lemma filter_keywords (k : list string) :
  map unwrap (filter ToBoolean_string (map Some k)) = filter nonempty k.
Proof.
  induction k as [|s k IH]; simpl; [reflexivity|].
  unfold nonempty at 1. destruct (negb (s =? "")); simpl; now rewrite IH.
Qed.

Lemma query_composed (t : TriageResult) :
  query t = composedQuery (keywords_of t) (department t).
Proof.
  unfold query, composedQuery, join, keywords_of.
  fold unwrap. rewrite filter_app, map_app, filter_keywords.
  f_equal. f_equal.
  destruct (department t) as [d|]; simpl; [|reflexivity].
  unfold nonempty. now destruct (negb (d =? "")).
Qed.

Lemma append_assoc (a b c : string) : (a ++ b) ++ c = a ++ (b ++ c).
Proof. induction a as [|ch a IH]; simpl; [reflexivity|now rewrite IH]. Qed.

Lemma concat_ends_with (sep h : string) (l : list string) :
  exists pre, String.concat sep (l ++ [h]) = pre ++ h.
Proof.
  induction l as [|x l [pre IH]].
  - now exists "".
  - exists (x ++ sep ++ pre).
    change ((x :: l) ++ [h])%list with (x :: (l ++ [h]))%list.
    destruct (l ++ [h])%list as [|y r] eqn:E.
    + now destruct l.
    + change (String.concat sep (x :: y :: r))
        with (x ++ sep ++ String.concat sep (y :: r)).
      rewrite IH. now rewrite !append_assoc.
Qed.

Lemma ends_with_nonempty (pre : string) : pre ++ "hospital" <> "".
Proof. destruct pre; discriminate. Qed.

Lemma query_ends_with_hospital (t : TriageResult) :
  exists pre, query t = pre ++ "hospital".
Proof.
  rewrite query_composed. unfold composedQuery.
  rewrite app_assoc. apply concat_ends_with.
Qed.

(** C4: the radius is 20000 for 'emergency', 15000 for 'urgent' and 10000
    for anything else (also with no triage result or no urgency); the query
    is the non-empty keywords, the department and 'hospital' joined by
    spaces; for 'urgent', "Cardiology" and no keywords the radius is 15000
    and the query is "Cardiology hospital". *)
Theorem search_policy :
  (forall tr, urgency_of tr = Some "emergency" -> getSearchRadius tr = 20000%Z) /\
  (forall tr, urgency_of tr = Some "urgent" -> getSearchRadius tr = 15000%Z) /\
  (forall tr, urgency_of tr <> Some "emergency" -> urgency_of tr <> Some "urgent" ->
              getSearchRadius tr = 10000%Z) /\
  (forall t, query t = composedQuery (keywords_of t) (department t)) /\
  (forall sp, getSearchRadius (Some (cardiology sp (Some []))) = 15000%Z /\
              query (cardiology sp (Some [])) = "Cardiology hospital" /\
              query (cardiology sp None) = "Cardiology hospital").
Proof.
  repeat split.
  - intros tr H. unfold getSearchRadius. now rewrite H.
  - intros tr H. unfold getSearchRadius. now rewrite H.
  - intros tr H1 H2. unfold getSearchRadius.
    destruct (urgency_of tr) as [u|]; [|reflexivity].
    destruct (String.eqb_spec u "emergency") as [->|_]; [now elim H1|].
    destruct (String.eqb_spec u "urgent") as [->|_]; [now elim H2|reflexivity].
  - apply query_composed.
Qed.

(** C9: whatever the keywords and the department (empty or missing
    included), the composed query ends with the term 'hospital', so it is
    not empty and the request never carries 'hospital near me'. *)
Theorem query_never_empty (t : TriageResult) :
  (exists pre, query t = pre ++ "hospital") /\
  query t <> "" /\
  ToBoolean_string (Some (query t)) = true /\
  query_or_fallback (query t) = query t /\
  (forall location, request_query (request location t) = query t).
Proof.
  destruct (query_ends_with_hospital t) as [pre E].
  assert (N : query t <> "") by (rewrite E; apply ends_with_nonempty).
  assert (B : ToBoolean_string (Some (query t)) = true).
  { unfold ToBoolean_string.
    destruct (String.eqb_spec (query t) ""); [contradiction|reflexivity]. }
  assert (F : query_or_fallback (query t) = query t).
  { unfold query_or_fallback. now rewrite B. }
  repeat split; eauto.
Qed.

End Policy.

(** ** The ranking pipeline *)

Module Ranking.
Import JS TriageMapRouter Spec Examples.

Lemma detailsPromises_fulfilled {M : MathObject} userLoc tr service results :
  Promise_all (detailsPromises service (initialScored userLoc tr results))
  = Fulfilled (placesWithDetails userLoc tr service results).
Proof. apply Promise_all_fulfilled. Qed.

Lemma processResults_eq {M : MathObject} userLoc tr service results st :
  processResults userLoc tr service results st
  = set_loading false
      (set_markers (mapi markerOf (finalPlaces tr (placesWithDetails userLoc tr service results)))
         (set_places (finalPlaces tr (placesWithDetails userLoc tr service results))
            (set_markers [] st))).
Proof. unfold processResults. now rewrite detailsPromises_fulfilled. Qed.

Lemma processResults_places {M : MathObject} userLoc tr service results st :
  places (processResults userLoc tr service results st)
  = finalPlaces tr (placesWithDetails userLoc tr service results).
Proof. now rewrite processResults_eq. Qed.

Lemma finalPlaces_length tr pwd :
  List.length (finalPlaces tr pwd) <= resultCap tr.
Proof. apply slice0_length. Qed.

Lemma finalPlaces_In tr pwd p :
  In p (finalPlaces tr pwd) -> In p pwd /\ keepPlace tr p = true.
Proof.
  intro H. apply slice0_In in H. unfold filteredPlaces in H.
  apply filter_In in H. destruct H as [H K]. split; [|exact K].
  now apply Array_sort_In in H.
Qed.

Lemma keepPlace_emergency tr p :
  is_emergency tr = true -> keepPlace tr p = true -> isOpen p <> Some false.
Proof.
  unfold keepPlace, isOpen_false. intros -> K E. rewrite E in K. discriminate.
Qed.

Lemma unknown_kept tr pwd p :
  In p pwd -> isOpen p = None -> In p (filteredPlaces tr pwd).
Proof.
  intros H E. apply filter_In. split.
  - now apply Array_sort_In.
  - unfold keepPlace, isOpen_false. rewrite E. now destruct (is_emergency tr).
Qed.

(** C1: for every urgency and every list of enriched candidates the final
    list has at most 3 entries when the urgency is 'emergency' and at most
    5 otherwise, and for 'emergency' it holds no candidate whose [isOpen] is
    [false], whatever its score; the filter keeps every candidate whose
    status is unknown. The same holds of the list the pipeline stores. *)
Theorem final_list_bounded :
  (forall tr pwd,
      List.length (finalPlaces tr pwd) <= (if is_emergency tr then 3 else 5) /\
      (is_emergency tr = true ->
       forall p, In p (finalPlaces tr pwd) -> isOpen p <> Some false) /\
      (forall p, In p pwd -> isOpen p = None -> In p (filteredPlaces tr pwd))) /\
  (forall (M : MathObject) userLoc tr service results st,
      let final := places (processResults userLoc tr service results st) in
      List.length final <= (if is_emergency tr then 3 else 5) /\
      (is_emergency tr = true -> forall p, In p final -> isOpen p <> Some false)).
Proof.
  split.
  - intros tr pwd. split; [apply finalPlaces_length|]. split.
    + intros E p H. apply finalPlaces_In in H.
      now apply (keepPlace_emergency tr p E).
    + apply unknown_kept.
  - intros M userLoc tr service results st final. subst final.
    rewrite processResults_places. split; [apply finalPlaces_length|].
    intros E p H. apply finalPlaces_In in H.
    now apply (keepPlace_emergency tr p E).
Qed.

(** *** Enrichment *)

Lemma resolveDetails_isOpen p r b :
  isOpen (resolveDetails p r) = Some b <-> answers r b.
Proof.
  unfold resolveDetails, answers. split.
  - destruct (details r) as [d|] eqn:D;
      destruct (details_status r) eqn:S; try discriminate.
    simpl.
    destruct (opening_hours d) as [oh|] eqn:H; [|discriminate].
    destruct (isOpen_method oh) as [[v|]|] eqn:I; try discriminate.
    intros ->. split; [reflexivity|]. now exists d, oh.
  - intros [-> (d & oh & -> & E1 & E2)]. simpl. now rewrite E1, E2.
Qed.

Lemma resolveDetails_unknown p r :
  (forall b, ~ answers r b) -> isOpen (resolveDetails p r) = None.
Proof.
  intro H. destruct (isOpen (resolveDetails p r)) as [b|] eqn:E; [|reflexivity].
  apply resolveDetails_isOpen in E. now elim (H b).
Qed.

(** C6: a lookup that fails, carries no data, or carries data whose opening
    hours are missing or cannot be asked (no [isOpen] function, a call that
    throws or answers [undefined]) leaves the status unknown; a status of
    [true] or [false] is always the lookup's own answer; and whatever the
    lookups answer, every promise fulfils, so the callback that stores the
    result runs, sets no error and ends the loading state. *)
Theorem failed_lookup_is_unknown :
  (forall p r,
      (details_status r <> OK -> isOpen (resolveDetails p r) = None) /\
      (details r = None -> isOpen (resolveDetails p r) = None) /\
      (forall d, details r = Some d -> opening_hours d = None ->
                 isOpen (resolveDetails p r) = None) /\
      (forall d oh, details r = Some d -> opening_hours d = Some oh ->
                    isOpen_method oh = None \/ isOpen_method oh = Some Throws
                    \/ isOpen_method oh = Some (Returns None) ->
                    isOpen (resolveDetails p r) = None) /\
      (forall b, isOpen (resolveDetails p r) = Some b -> answers r b)) /\
  (forall (M : MathObject) userLoc tr service results st,
      Promise_all (detailsPromises service (initialScored userLoc tr results))
      = Fulfilled (placesWithDetails userLoc tr service results) /\
      List.length (placesWithDetails userLoc tr service results)
      = List.length (initialScored userLoc tr results) /\
      loading (processResults userLoc tr service results st) = false /\
      error (processResults userLoc tr service results st) = error st).
Proof.
  split.
  - intros p r. split; [|split; [|split; [|split]]].
    + intro H. apply resolveDetails_unknown. intros b [E _]. contradiction.
    + intro H. apply resolveDetails_unknown.
      intros b [_ (d & oh & E & _)]. congruence.
    + intros d H1 H2. apply resolveDetails_unknown.
      intros b [_ (d' & oh & E & E' & _)]. congruence.
    + intros d oh H1 H2 H3. apply resolveDetails_unknown.
      intros b [_ (d' & oh' & E & E' & E'')].
      assert (d' = d) by congruence. subst d'.
      assert (oh' = oh) by congruence. subst oh'.
      destruct H3 as [H3|[H3|H3]]; congruence.
    + intros b H. now apply resolveDetails_isOpen in H.
  - intros M userLoc tr service results st. split; [|split; [|split]].
    + apply detailsPromises_fulfilled.
    + apply mapi_from_length.
    + now rewrite processResults_eq.
    + now rewrite processResults_eq.
Qed.

(** *** Frame of the enrichment *)

Lemma resolveDetails_frame p r :
  place_id (place (resolveDetails p r)) = place_id (place p) /\
  name (place (resolveDetails p r)) = name (place p) /\
  geometry (place (resolveDetails p r)) = geometry (place p) /\
  rating (place (resolveDetails p r)) = rating (place p) /\
  user_ratings_total (place (resolveDetails p r)) = user_ratings_total (place p) /\
  vicinity (place (resolveDetails p r)) = vicinity (place p) /\
  distance (resolveDetails p r) = distance p /\
  score (resolveDetails p r) = score p.
Proof.
  unfold resolveDetails.
  destruct (details_status r); destruct (details r); simpl; repeat split.
Qed.

Lemma initialScored_In {M : MathObject} userLoc tr results q :
  In q (initialScored userLoc tr results) ->
  exists c loc,
    In c results /\ geometry c = Some loc /\ place q = c /\ isOpen q = None /\
    distance q = calculateDistance (lat userLoc) (lng userLoc) (lat loc) (lng loc) /\
    score q = calculateScore c (distance q).
Proof.
  intro H. apply slice0_In in H. apply Array_sort_In in H.
  apply in_flat_map in H. destruct H as (c & Hc & H).
  unfold scorePlace in H. destruct (geometry c) as [loc|] eqn:G; [|contradiction].
  destruct H as [<-|[]]. exists c, loc. simpl. repeat split; assumption.
Qed.

(** C10: every entry of the final list is a candidate that survived phase
    1, with the identifier, name, coordinate, distance and score computed
    there (and its rating, review count and address); the lookups, failed
    or not, touch only the open status, the phone number and the business
    status. *)
Theorem enrichment_frame {M : MathObject} userLoc tr service results st p :
  In p (places (processResults userLoc tr service results st)) ->
  exists q,
    In q (initialScored userLoc tr results) /\
    place_id (place p) = place_id (place q) /\
    name (place p) = name (place q) /\
    geometry (place p) = geometry (place q) /\
    rating (place p) = rating (place q) /\
    user_ratings_total (place p) = user_ratings_total (place q) /\
    vicinity (place p) = vicinity (place q) /\
    distance p = distance q /\
    score p = score q /\
    exists c loc,
      In c results /\ geometry c = Some loc /\ place q = c /\
      distance p = calculateDistance (lat userLoc) (lng userLoc) (lat loc) (lng loc) /\
      score p = calculateScore c (distance p).
Proof.
  rewrite processResults_places. intro H.
  apply finalPlaces_In in H. destruct H as [H _].
  apply mapi_from_In in H. destruct H as (j & q & Hq & ->).
  exists q. split; [exact Hq|].
  destruct (resolveDetails_frame q (getDetails service j (place_id (place q))))
    as (E1 & E2 & E3 & E4 & E5 & E6 & E7 & E8).
  repeat (split; [assumption|]).
  destruct (initialScored_In _ _ _ _ Hq) as (c & loc & Hc & G & Ec & _ & Ed & Es).
  exists c, loc. rewrite E7, E8. repeat split; assumption.
Qed.

End Ranking.

(** ** The search effect *)

Module Search.
Import JS TriageMapRouter Spec Examples.
Local Open Scope string_scope.

Lemma processResults_error {M : MathObject} userLoc tr service results st :
  error (processResults userLoc tr service results st) = error st.
Proof. now rewrite Ranking.processResults_eq. Qed.

Lemma processResults_empty {M : MathObject} userLoc tr service st :
  places (processResults userLoc tr service [] st) = [].
Proof.
  rewrite Ranking.processResults_places.
  unfold placesWithDetails, initialScored, finalPlaces, filteredPlaces, slice0.
  simpl. rewrite firstn_nil. simpl. apply firstn_nil.
Qed.

Lemma searchEffect_cases {M : MathObject} loaded mounted tr service st :
  (error (searchEffect loaded mounted tr service st) = error st) \/
  (exists userLoc t,
      userLocation st = Some userLoc /\ tr = Some t /\
      loaded = true /\ mounted = true /\
      has_result_set (textSearch service (request userLoc t)) = false /\
      has_result_set (nearbySearch service (nearbyRequest userLoc tr)) = false /\
      error (searchEffect loaded mounted tr service st) = Some "No hospitals found nearby").
Proof.
  unfold searchEffect.
  destruct (userLocation st) as [userLoc|] eqn:U; [|now left].
  destruct tr as [t|]; [|now left].
  destruct loaded, mounted; try (now left). simpl andb. cbv iota.
  fold (nearbyRequest userLoc (Some t)).
  destruct (has_result_set (textSearch service (request userLoc t))) eqn:T.
  - left. unfold has_result_set in T.
    destruct (search_status (textSearch service (request userLoc t)));
      destruct (search_results (textSearch service (request userLoc t)));
      try discriminate.
    now rewrite processResults_error.
  - destruct (has_result_set (nearbySearch service (nearbyRequest userLoc (Some t)))) eqn:N.
    + left. unfold has_result_set in T, N.
      destruct (search_status (nearbySearch service (nearbyRequest userLoc (Some t))));
        destruct (search_results (nearbySearch service (nearbyRequest userLoc (Some t))));
        try discriminate.
      destruct (search_status (textSearch service (request userLoc t)));
        destruct (search_results (textSearch service (request userLoc t)));
        try discriminate; now rewrite processResults_error.
    + right. exists userLoc, t. repeat (split; [first [reflexivity|assumption]|]).
      unfold has_result_set in T, N.
      destruct (search_status (nearbySearch service (nearbyRequest userLoc (Some t))));
        destruct (search_results (nearbySearch service (nearbyRequest userLoc (Some t))));
        try discriminate;
      destruct (search_status (textSearch service (request userLoc t)));
        destruct (search_results (textSearch service (request userLoc t)));
        try discriminate; reflexivity.
Qed.

(** C8: the pipeline run on an empty candidate list stores the empty list,
    leaves the error as it was and ends the loading state; a search whose
    text search hands over an empty list with status OK does the same; and
    the effect changes the error only to 'No hospitals found nearby', and
    only when neither the text search nor the nearby search handed over a
    result set. *)
Theorem empty_candidates_no_error {M : MathObject} :
  (forall userLoc tr service st,
      places (processResults userLoc tr service [] st) = [] /\
      error (processResults userLoc tr service [] st) = error st /\
      loading (processResults userLoc tr service [] st) = false) /\
  (forall userLoc t service st,
      userLocation st = Some userLoc ->
      textSearch service (request userLoc t)
      = {| search_results := Some []; search_status := OK |} ->
      places (searchEffect true true (Some t) service st) = [] /\
      error (searchEffect true true (Some t) service st) = error st) /\
  (forall loaded mounted tr service st,
      error (searchEffect loaded mounted tr service st) <> error st ->
      error (searchEffect loaded mounted tr service st) = Some "No hospitals found nearby" /\
      exists userLoc t,
        userLocation st = Some userLoc /\ tr = Some t /\
        has_result_set (textSearch service (request userLoc t)) = false /\
        has_result_set (nearbySearch service (nearbyRequest userLoc tr)) = false).
Proof.
  split; [|split].
  - intros userLoc tr service st. split; [apply processResults_empty|].
    split; [apply processResults_error|]. now rewrite Ranking.processResults_eq.
  - intros userLoc t service st U T. unfold searchEffect. rewrite U, T. simpl.
    split; [apply processResults_empty|]. now rewrite processResults_error.
  - intros loaded mounted tr service st H.
    destruct (searchEffect_cases loaded mounted tr service st)
      as [E|(userLoc & t & U & -> & _ & _ & T & N & E)]; [contradiction|].
    split; [exact E|]. now exists userLoc, t.
Qed.

End Search.

(** ** Directions *)

Module Directions.
Import TriageMapRouter Spec Examples.

(** C7: when the route computation answers the request with a status
    other than OK, the call ends normally and the route info, the selected
    place, the stored directions, the error and the rest of the React state
    are exactly what they were; the only write is the creation of the
    (empty) renderer when there was none. *)
Theorem failed_directions_keep_state route p st req :
  requestFor st p = Some req ->
  route_status (route req) <> DIRECTIONS_OK ->
  let st' := fst (showDirections route p st) in
  snd (showDirections route p st) = Normal /\
  routeInfo st' = routeInfo st /\
  selectedPlace st' = selectedPlace st /\
  directions st' = directions st /\
  error st' = error st /\
  places st' = places st /\
  loading st' = loading st /\
  userLocation st' = userLocation st /\
  markers st' = markers st /\
  mapInstance st' = mapInstance st /\
  directionsRenderer st' =
    match directionsRenderer st with
    | None => Some None
    | Some shown => Some shown
    end.
Proof.
  unfold requestFor, showDirections. intros R F.
  destruct (mapInstance st) eqn:Mi; [|discriminate].
  destruct (userLocation st) as [userLoc|] eqn:U; [|discriminate].
  destruct (geometry (place p)) as [dest|]; [|discriminate].
  injection R as <-.
  destruct (route_status (route {| origin := userLoc; destination := dest |}));
    [now elim F| | | |];
    destruct (directionsRenderer st) eqn:D; simpl; repeat split; auto.
Qed.

End Directions.

(** ** Binary64 arithmetic

    Facts about the primitive floats read off their specification in
    [SpecFloat]: how negation passes through the operations, what a
    difference [x - x] can be, and a bound on the magnitude of products and
    quotients that rules out overflow. *)

Module FloatFacts.
Import Spec.

Local Open Scope float_scope.

(** *** Classification *)

Lemma SFcompare_refl (x : spec_float) :
  x <> S754_nan -> SFcompare x x = Some Eq.
Proof.
  destruct x as [s|s| |s m e]; intro H; try reflexivity.
  - now destruct s.
  - now elim H.
  - simpl. rewrite Z.compare_refl, Pos.compare_cont_refl. now destruct s.
Qed.

Lemma is_nan_spec (x : float) : is_nan x = true <-> Prim2SF x = S754_nan.
Proof.
  unfold is_nan. rewrite eqb_spec. unfold SFeqb. split.
  - intro H. destruct (Prim2SF x) eqn:E; try reflexivity;
      rewrite SFcompare_refl in H by discriminate; discriminate.
  - intros ->. reflexivity.
Qed.

Lemma is_zero_spec (x : float) : is_zero x = true <-> exists s, Prim2SF x = S754_zero s.
Proof.
  unfold is_zero. rewrite eqb_spec. unfold SFeqb.
  change (Prim2SF zero) with (S754_zero false). split.
  - destruct (Prim2SF x) as [s|s| |s m e]; simpl; try discriminate.
    + intros _. now exists s.
    + now destruct s.
    + now destruct s.
  - intros [s ->]. reflexivity.
Qed.

Lemma ltb_falsy (c x : float) :
  (0 <? c) = true -> (is_zero x || is_nan x) = true -> (c <? x) = false.
Proof.
  intros C H. rewrite ltb_spec in *. unfold SFltb in *.
  change (Prim2SF 0) with (S754_zero false) in C.
  apply orb_true_iff in H. destruct H as [H|H].
  - apply is_zero_spec in H. destruct H as [s ->].
    destruct (Prim2SF c) as [t|t| |t m e]; simpl in *; try discriminate; try reflexivity.
    + now destruct t.
    + now destruct t.
  - apply is_nan_spec in H. rewrite H. now destruct (Prim2SF c).
Qed.

(** *** Negation and the arithmetic operations *)

Lemma round_aux_opp (s : bool) (m e : Z) (l : location) :
  binary_round_aux prec emax (negb s) m e l = SFopp (binary_round_aux prec emax s m e l).
Proof.
  unfold binary_round_aux.
  destruct (shr_fexp prec emax m e l) as [mrs' e'].
  destruct (shr_fexp prec emax _ e' loc_Exact) as [mrs'' e''].
  destruct (shr_m mrs''); try reflexivity.
  now destruct (Z.leb e'' (emax - prec)).
Qed.

Lemma round_opp (s : bool) (m : positive) (e : Z) :
  binary_round prec emax (negb s) m e = SFopp (binary_round prec emax s m e).
Proof.
  unfold binary_round. destruct (shl_align _ _ _). apply round_aux_opp.
Qed.

Lemma SFopp_involutive (x : spec_float) : SFopp (SFopp x) = x.
Proof. destruct x; simpl; now rewrite ?negb_involutive. Qed.

Lemma SFmul_comm (x y : spec_float) : SF64mul x y = SF64mul y x.
Proof.
  destruct x as [sx|sx| |sx mx ex], y as [sy|sy| |sy my ey]; simpl;
    try reflexivity; try (now rewrite (xorb_comm sx sy)).
  now rewrite (xorb_comm sx sy), (Pos.mul_comm mx my), (Z.add_comm ex ey).
Qed.

Lemma SFmul_opp_l (x y : spec_float) : SF64mul (SFopp x) y = SFopp (SF64mul x y).
Proof.
  destruct x as [sx|sx| |sx mx ex], y as [sy|sy| |sy my ey]; simpl;
    try reflexivity; try (now rewrite negb_xorb_l).
  rewrite <- negb_xorb_l. apply round_aux_opp.
Qed.

Lemma SFdiv_opp_l (x y : spec_float) : SF64div (SFopp x) y = SFopp (SF64div x y).
Proof.
  destruct x as [sx|sx| |sx mx ex], y as [sy|sy| |sy my ey]; simpl;
    try reflexivity; try (now rewrite negb_xorb_l).
  destruct (SFdiv_core_binary prec emax (Z.pos mx) ex (Z.pos my) ey) as [[mz ez] lz].
  rewrite <- negb_xorb_l. apply round_aux_opp.
Qed.

Lemma normalize_opp (m e : Z) :
  m <> 0%Z ->
  binary_normalize prec emax (- m) e false = SFopp (binary_normalize prec emax m e false).
Proof.
  destruct m as [|p|p]; intro H; simpl.
  - now elim H.
  - apply (round_opp false).
  - rewrite <- (round_opp true). reflexivity.
Qed.

Lemma SFsub_swap (x y : spec_float) :
  SF64sub y x = SFopp (SF64sub x y) \/ SF64sub y x = SF64sub x y.
Proof.
  destruct x as [sx|sx| |sx mx ex], y as [sy|sy| |sy my ey];
    try (left; reflexivity);
    try (destruct sx, sy; simpl; auto; fail).
  unfold SF64sub, SFsub. rewrite (Z.min_comm ey ex).
  set (a := cond_Zopp sx _). set (b := cond_Zopp sy _).
  destruct (Z.eq_dec (a - b) 0) as [E|N].
  - right. replace (b - a)%Z with 0%Z by lia. now rewrite E.
  - left. replace (b - a)%Z with (- (a - b))%Z by lia. now apply normalize_opp.
Qed.

Lemma opp_involutive (x : float) : - - x = x.
Proof. apply Prim2SF_inj. now rewrite !opp_spec, SFopp_involutive. Qed.

Lemma mul_comm (x y : float) : x * y = y * x.
Proof. apply Prim2SF_inj. rewrite !mul_spec. apply SFmul_comm. Qed.

Lemma mul_opp_l (x y : float) : (- x) * y = - (x * y).
Proof. apply Prim2SF_inj. rewrite opp_spec, !mul_spec, opp_spec. apply SFmul_opp_l. Qed.

Lemma mul_opp_r (x y : float) : x * (- y) = - (x * y).
Proof. now rewrite mul_comm, mul_opp_l, mul_comm. Qed.

Lemma div_opp_l (x y : float) : (- x) / y = - (x / y).
Proof. apply Prim2SF_inj. rewrite opp_spec, !div_spec, opp_spec. apply SFdiv_opp_l. Qed.

Lemma abs_opp (x : float) : abs (- x) = abs x.
Proof.
  apply Prim2SF_inj. rewrite !abs_spec, opp_spec. now destruct (Prim2SF x).
Qed.

Lemma div_nan_r (y : float) : y / nan = nan.
Proof.
  apply Prim2SF_inj. rewrite div_spec. change (Prim2SF nan) with S754_nan.
  now destruct (Prim2SF y).
Qed.

Lemma sub_swap (x y : float) : y - x = - (x - y) \/ y - x = x - y.
Proof.
  destruct (SFsub_swap (Prim2SF x) (Prim2SF y)) as [H|H].
  - left. apply Prim2SF_inj. now rewrite opp_spec, !sub_spec.
  - right. apply Prim2SF_inj. now rewrite !sub_spec.
Qed.

Lemma SFsub_self (x : spec_float) :
  SF64sub x x = S754_nan \/ SF64sub x x = S754_zero false.
Proof.
  destruct x as [s|s| |s m e]; simpl; auto.
  - right. now destruct s.
  - left. now destruct s.
  - right. rewrite Z.min_id. now rewrite Z.sub_diag.
Qed.

Lemma sub_self_not_positive (x : float) : (0 <? x - x) = false.
Proof.
  rewrite ltb_spec, sub_spec.
  destruct (SFsub_self (Prim2SF x)) as [-> | ->]; reflexivity.
Qed.

(** *** Digits of the mantissa and right shifts *)

Local Open Scope Z_scope.

Lemma digits2_size (p : positive) : digits2_pos p = Pos.size p.
Proof. induction p; simpl; congruence. Qed.

Lemma Zdigits2_log2 (p : positive) : Zdigits2 (Zpos p) = Z.log2 (Zpos p) + 1.
Proof.
  simpl. rewrite digits2_size. destruct p; simpl; try reflexivity; lia.
Qed.

Lemma Zdigits2_nonneg (m : Z) : 0 <= m -> 0 <= Zdigits2 m.
Proof. destruct m; simpl; lia. Qed.

Lemma Zdigits2_mono (a b : Z) : 0 <= a <= b -> Zdigits2 a <= Zdigits2 b.
Proof.
  intros [Ha Hab]. destruct a as [|a|a]; [apply Zdigits2_nonneg; lia| |lia].
  destruct b as [|b|b]; try lia.
  rewrite !Zdigits2_log2. apply Z.add_le_mono_r. now apply Z.log2_le_mono.
Qed.

Lemma Zdigits2_succ (a : Z) : 0 <= a -> Zdigits2 (a + 1) <= Zdigits2 a + 1.
Proof.
  intro Ha. destruct a as [|a|a]; [simpl; lia| |lia].
  change (Z.pos a + 1) with (Z.succ (Z.pos a)).
  destruct (Z.succ (Z.pos a)) as [|b|b] eqn:E; try lia.
  rewrite !Zdigits2_log2, <- E.
  pose proof (Z.log2_succ_le (Z.pos a)). lia.
Qed.

Lemma Zdigits2_mul (a b : positive) :
  Zdigits2 (Zpos (a * b)) <= Zdigits2 (Zpos a) + Zdigits2 (Zpos b).
Proof.
  rewrite !Zdigits2_log2. rewrite Pos2Z.inj_mul.
  pose proof (Z.log2_mul_above (Z.pos a) (Z.pos b)). lia.
Qed.

Lemma Zdigits2_div_pow2 (m n : Z) :
  0 <= m -> 0 <= n -> m / 2 ^ n = 0 \/ Zdigits2 (m / 2 ^ n) + n <= Zdigits2 m.
Proof.
  intros Hm Hn.
  assert (P : 0 < 2 ^ n) by (apply Z.pow_pos_nonneg; lia).
  destruct (Z.eq_dec (m / 2 ^ n) 0) as [E|N]; [now left|right].
  assert (Q : 0 < m / 2 ^ n) by (pose proof (Z.div_pos m (2 ^ n)); lia).
  assert (Mp : 0 < m).
  { destruct (Z.eq_dec m 0) as [->|]; [|lia]. rewrite Z.div_0_l in Q; lia. }
  destruct (m / 2 ^ n) as [|q|q] eqn:Eq; try lia.
  destruct m as [|p|p]; try lia.
  rewrite !Zdigits2_log2, <- Eq.
  rewrite <- Z.shiftr_div_pow2 by lia.
  rewrite Z.log2_shiftr by lia.
  rewrite <- Z.shiftr_div_pow2 in Eq by lia.
  assert (0 < Z.log2 (Z.shiftr (Z.pos p) n) \/ Z.log2 (Z.shiftr (Z.pos p) n) = 0).
  { pose proof (Z.log2_nonneg (Z.shiftr (Z.pos p) n)). lia. }
  rewrite Z.log2_shiftr in H by lia.
  destruct (Z.max_spec 0 (Z.log2 (Z.pos p) - n)) as [[A ->]|[A ->]]; try lia.
  assert (Z.log2 (Z.pos p) - n <= 0) by lia.
  assert (n <= Z.log2 (Z.pos p)).
  { destruct (Z.le_gt_cases n (Z.log2 (Z.pos p))) as [L|G]; [exact L|].
    rewrite Z.shiftr_eq_0 in Eq; lia. }
  lia.
Qed.

Lemma shr_1_m (mrs : shr_record) :
  0 <= shr_m mrs -> shr_m (shr_1 mrs) = shr_m mrs / 2.
Proof.
  destruct mrs as [m r s]. simpl. intro H.
  destruct m as [|[p|p|]|p]; simpl; try lia; try reflexivity.
  - rewrite Pos2Z.inj_xI. apply Z.div_unique with 1; lia.
  - rewrite Pos2Z.inj_xO. apply Z.div_unique with 0; lia.
Qed.

Lemma div_pow2_pow2 (a j k : Z) :
  0 <= j -> 0 <= k -> a / 2 ^ j / 2 ^ k = a / 2 ^ (j + k).
Proof.
  intros Hj Hk. rewrite Z.pow_add_r by lia.
  assert (0 < 2 ^ j) by (apply Z.pow_pos_nonneg; lia).
  assert (0 < 2 ^ k) by (apply Z.pow_pos_nonneg; lia).
  apply Z.div_div; lia.
Qed.

Lemma iter_shr_m (n : positive) :
  forall mrs, 0 <= shr_m mrs ->
              shr_m (iter_pos shr_1 n mrs) = shr_m mrs / 2 ^ Zpos n.
Proof.
  assert (D : forall a k, 0 <= a -> 0 <= k -> 0 <= a / 2 ^ k).
  { intros a k Ha Hk. apply Z.div_pos; [exact Ha|]. apply Z.pow_pos_nonneg; lia. }
  induction n as [n IH|n IH|]; intros mrs H; simpl iter_pos.
  - assert (A : shr_m (shr_1 mrs) = shr_m mrs / 2) by now apply shr_1_m.
    assert (A0 : 0 <= shr_m (shr_1 mrs)) by (rewrite A; apply Z.div_pos; lia).
    assert (B := IH _ A0).
    assert (B0 : 0 <= shr_m (iter_pos shr_1 n (shr_1 mrs))) by (rewrite B; apply D; lia).
    rewrite (IH _ B0), B, A.
    change (shr_m mrs / 2) with (shr_m mrs / 2 ^ 1).
    rewrite !div_pow2_pow2 by lia. f_equal. f_equal. lia.
  - assert (B := IH _ H).
    assert (B0 : 0 <= shr_m (iter_pos shr_1 n mrs)) by (rewrite B; apply D; lia).
    rewrite (IH _ B0), B.
    rewrite !div_pow2_pow2 by lia. f_equal. f_equal. lia.
  - now rewrite shr_1_m by exact H.
Qed.

(** *** Rounding without overflow *)

Lemma shr_record_of_loc_m (m : Z) (l : location) : shr_m (shr_record_of_loc m l) = m.
Proof. now destruct l as [|[]]. Qed.

Lemma shr_fexp_bounds (M E : Z) (l : location) :
  0 <= M ->
  0 <= shr_m (fst (shr_fexp prec emax M E l)) /\
  snd (shr_fexp prec emax M E l) = Z.max E (fexp prec emax (Zdigits2 M + E)) /\
  (shr_m (fst (shr_fexp prec emax M E l)) = 0 \/
   Zdigits2 (shr_m (fst (shr_fexp prec emax M E l))) + snd (shr_fexp prec emax M E l)
   <= Zdigits2 M + E).
Proof.
  intro HM. unfold shr_fexp, shr.
  set (f := fexp prec emax (Zdigits2 M + E)).
  destruct (f - E) as [|p|p] eqn:N; simpl fst; simpl snd.
  - rewrite shr_record_of_loc_m. split; [exact HM|]. split; [lia|]. right. lia.
  - assert (R : 0 <= shr_m (shr_record_of_loc M l)) by now rewrite shr_record_of_loc_m.
    rewrite (iter_shr_m p _ R), shr_record_of_loc_m.
    split; [apply Z.div_pos; [exact HM|apply Z.pow_pos_nonneg; lia]|].
    split; [lia|].
    destruct (Zdigits2_div_pow2 M (Z.pos p)) as [Z|L]; try lia.
  - rewrite shr_record_of_loc_m. split; [exact HM|]. split; [lia|]. right. lia.
Qed.

Lemma fexp_eq (x : Z) : fexp prec emax x = Z.max (x - 53) (-1074).
Proof. reflexivity. Qed.

Lemma round_nearest_even_cases (m : Z) (l : location) :
  round_nearest_even m l = m \/ round_nearest_even m l = m + 1.
Proof. destruct l as [|[]]; simpl; auto. destruct (Z.even m); auto. Qed.

Lemma round_aux_within (s : bool) (M E : Z) (l : location) (B : Z) :
  0 <= M -> Zdigits2 M + E <= B -> E <= B -> -1000 <= B <= 900 ->
  within s (B + 1) (binary_round_aux prec emax s M E l).
Proof.
  intros HM HB HE HR. unfold binary_round_aux.
  destruct (shr_fexp_bounds M E l HM) as (P1 & E1 & D1).
  destruct (shr_fexp prec emax M E l) as [mrs' e'] eqn:S1. simpl fst in *. simpl snd in *.
  set (m1 := round_nearest_even (shr_m mrs') (loc_of_shr_record mrs')).
  assert (Hm1 : 0 <= m1 /\ Zdigits2 m1 + e' <= B + 1).
  { assert (F : fexp prec emax (Zdigits2 M + E) <= B) by (rewrite fexp_eq; lia).
    destruct (round_nearest_even_cases (shr_m mrs') (loc_of_shr_record mrs')) as [R|R];
      fold m1 in R; rewrite R.
    - split; [exact P1|].
      destruct D1 as [Z|L]; [rewrite Z; change (Zdigits2 0) with 0; lia|lia].
    - split; [lia|]. pose proof (Zdigits2_succ _ P1) as H.
      destruct D1 as [Z|L]; [rewrite Z; change (Zdigits2 (0 + 1)) with 1; lia|lia]. }
  destruct Hm1 as [P2 B2].
  destruct (shr_fexp_bounds m1 e' loc_Exact P2) as (P3 & E3 & D3).
  destruct (shr_fexp prec emax m1 e' loc_Exact) as [mrs'' e''] eqn:S2.
  simpl fst in *. simpl snd in *. revert P3 D3.
  destruct (shr_m mrs'') as [|m|m] eqn:Em; intros P3 D3; [reflexivity| |lia].
  fold (Zdigits2 (Z.pos m)).
  assert (L : e'' <= emax - prec).
  { rewrite fexp_eq in E1, E3. change (emax - prec) with 971. lia. }
  apply Z.leb_le in L. rewrite L. split; [reflexivity|].
  destruct D3 as [Z|D3]; [discriminate|]. rewrite fexp_eq in E1, E3. lia.
Qed.

(** *** Magnitude of products and quotients *)

Lemma Zdigits2_pos_ge (m : positive) : 1 <= Zdigits2 (Zpos m).
Proof. rewrite Zdigits2_log2. pose proof (Z.log2_nonneg (Zpos m)). lia. Qed.

Lemma within_weaken (s : bool) (B B' : Z) (x : spec_float) :
  B <= B' -> within s B x -> within s B' x.
Proof. destruct x; simpl; try tauto. intros H [E L]. split; [exact E|lia]. Qed.

Lemma SFmul_within (sx sy : bool) (Bx By : Z) (x y : spec_float) :
  within sx Bx x -> within sy By y -> -1000 <= Bx + By <= 900 ->
  within (xorb sx sy) (Bx + By + 1) (SF64mul x y).
Proof.
  destruct x as [tx|tx| |tx mx ex], y as [ty|ty| |ty my ey];
    unfold SF64mul; cbn [within SFmul]; try tauto.
  - now intros -> ->.
  - now intros -> [-> _].
  - now intros [-> _] ->.
  - intros [-> Hx] [-> Hy] HB.
    pose proof (Zdigits2_mul mx my). pose proof (Zdigits2_pos_ge mx).
    pose proof (Zdigits2_pos_ge my).
    apply round_aux_within; lia.
Qed.

Lemma SFdiv_core_bounds (mx my : positive) (ex ey : Z) :
  let r := SFdiv_core_binary prec emax (Zpos mx) ex (Zpos my) ey in
  0 <= fst (fst r) /\
  Zdigits2 (fst (fst r)) + snd (fst r) <= Zdigits2 (Zpos mx) + ex - ey /\
  snd (fst r) <= ex - ey.
Proof.
  unfold SFdiv_core_binary.
  set (e' := Z.min _ (ex - ey)).
  assert (He : e' <= ex - ey) by apply Z.le_min_r.
  set (m' := match ex - ey - e' with Z.pos _ => _ | 0 => _ | Z.neg _ => _ end).
  assert (Hm : 0 < m' /\ Zdigits2 m' = Zdigits2 (Zpos mx) + (ex - ey - e')).
  { subst m'. destruct (ex - ey - e') as [|p|p] eqn:S; cbv iota; try lia.
    rewrite Z.shiftl_mul_pow2 by lia.
    assert (0 < 2 ^ Z.pos p) by (apply Z.pow_pos_nonneg; lia).
    split; [lia|].
    destruct (Z.pos mx * 2 ^ Z.pos p) as [|q|q] eqn:Q; try lia.
    rewrite !Zdigits2_log2, <- Q.
    rewrite Z.log2_mul_pow2 by lia. lia. }
  destruct Hm as [Hm Hd].
  destruct (Z.div_eucl m' (Z.pos my)) as [q r] eqn:DE. simpl fst. simpl snd.
  assert (Hq : q = m' / Z.pos my) by (unfold Z.div; now rewrite DE).
  assert (Q0 : 0 <= q) by (rewrite Hq; apply Z.div_pos; lia).
  assert (Q1 : q <= m').
  { rewrite Hq. apply Z.div_le_upper_bound; [lia|]. nia. }
  split; [exact Q0|]. split; [|exact He].
  pose proof (Zdigits2_mono q m' (conj Q0 Q1)). lia.
Qed.

Lemma SFdiv_within (sx sy : bool) (Bx : Z) (x : spec_float) (my : positive) (ey : Z) :
  within sx Bx x -> -1000 <= Bx - ey <= 900 ->
  within (xorb sx sy) (Bx - ey + 1) (SF64div x (S754_finite sy my ey)).
Proof.
  destruct x as [tx|tx| |tx mx ex]; unfold SF64div; cbn [within SFdiv]; try tauto.
  - now intros ->.
  - intros [-> Hx] HB.
    pose proof (SFdiv_core_bounds mx my ex ey) as H. cbv zeta in H.
    destruct (SFdiv_core_binary prec emax (Z.pos mx) ex (Z.pos my) ey) as [[mz ez] lz].
    cbn [fst snd] in H. destruct H as (H0 & H1 & H2).
    pose proof (Zdigits2_pos_ge mx).
    apply round_aux_within; lia.
Qed.

Lemma valid_digits (x : float) (s : bool) (m : positive) (e : Z) :
  Prim2SF x = S754_finite s m e -> Zdigits2 (Zpos m) <= 53.
Proof.
  intro E. pose proof (Prim2SF_valid x) as V. rewrite E in V.
  simpl in V. unfold bounded, canonical_mantissa in V.
  apply andb_true_iff in V. destruct V as [V _]. apply Z.eqb_eq in V.
  rewrite fexp_eq in V. simpl. lia.
Qed.

Local Open Scope float_scope.

Lemma abs_le_within (x c : float) (mc : positive) (ec : Z) :
  Prim2SF c = S754_finite false mc ec ->
  (abs x <=? c) = true ->
  exists s, within s (53 + ec) (Prim2SF x).
Proof.
  intros C H. rewrite leb_spec, abs_spec, C in H. unfold SFleb in H.
  destruct (Prim2SF x) as [s|s| |s m e] eqn:E; simpl in H; try discriminate.
  - now exists s.
  - exists s. split; [reflexivity|].
    pose proof (valid_digits x s m e E).
    destruct (Z.compare_spec e ec); try discriminate; lia.
Qed.

Lemma within_finite (x : float) (s : bool) (B : Z) :
  within s B (Prim2SF x) -> is_finite x = true.
Proof.
  intro W. unfold is_finite.
  destruct (is_nan x) eqn:N.
  - apply is_nan_spec in N. rewrite N in W. contradiction.
  - unfold is_infinity. rewrite eqb_spec, abs_spec. simpl.
    destruct (Prim2SF x); simpl in *; try reflexivity; contradiction.
Qed.

Lemma within_sub_self (x : float) (s : bool) (B : Z) :
  within s B (Prim2SF x) -> x - x = 0.
Proof.
  intro W. apply Prim2SF_inj. rewrite sub_spec.
  change (Prim2SF 0) with (S754_zero false).
  destruct (Prim2SF x) as [t|t| |t m e]; simpl in *; try contradiction.
  - now destruct t.
  - now rewrite Z.min_id, Z.sub_diag.
Qed.

Lemma within_mul_zero (x : float) (B : Z) :
  within false B (Prim2SF x) -> x * 0 = 0.
Proof.
  intro W. apply Prim2SF_inj. rewrite mul_spec.
  change (Prim2SF 0) with (S754_zero false).
  destruct (Prim2SF x) as [t|t| |t m e]; simpl in *; try contradiction.
  - now subst t.
  - destruct W as [-> _]. reflexivity.
Qed.

Lemma mul_within (x y : float) (sx sy : bool) (Bx By : Z) :
  within sx Bx (Prim2SF x) -> within sy By (Prim2SF y) ->
  (-1000 <= Bx + By <= 900)%Z ->
  within (xorb sx sy) (Bx + By + 1) (Prim2SF (x * y)).
Proof. intros. rewrite mul_spec. now apply SFmul_within. Qed.

Lemma div_within (x y : float) (sx sy : bool) (Bx : Z) (my : positive) (ey : Z) :
  Prim2SF y = S754_finite sy my ey ->
  within sx Bx (Prim2SF x) -> (-1000 <= Bx - ey <= 900)%Z ->
  within (xorb sx sy) (Bx - ey + 1) (Prim2SF (x / y)).
Proof. intros Y W H. rewrite div_spec, Y. now apply SFdiv_within. Qed.

End FloatFacts.

(** ** The distance function *)

Module Distance.
Import JS TriageMapRouter FloatFacts Spec Examples.
Local Open Scope float_scope.

Lemma radians_opp (x : float) : radians (- x) = - radians x.
Proof. unfold radians. now rewrite mul_opp_l, div_opp_l. Qed.

Lemma radians_swap (x y : float) :
  radians (y - x) = - radians (x - y) \/ radians (y - x) = radians (x - y).
Proof.
  destruct (sub_swap x y) as [-> | ->]; [left; apply radians_opp|now right].
Qed.

Section Laws.
Context {M : MathObject} {L : MathLaws M}.

Lemma sin_half_opp (k x : float) :
  k * Math_sin (- x / 2) * Math_sin (- x / 2) = k * Math_sin (x / 2) * Math_sin (x / 2).
Proof.
  rewrite div_opp_l, Math_sin_odd, !mul_opp_r, mul_opp_l.
  apply opp_involutive.
Qed.

Lemma sin_half_square_opp (x : float) :
  Math_sin (- x / 2) * Math_sin (- x / 2) = Math_sin (x / 2) * Math_sin (x / 2).
Proof.
  rewrite div_opp_l, Math_sin_odd, mul_opp_r, mul_opp_l.
  apply opp_involutive.
Qed.

Lemma haversine_a_sym (lat1 lng1 lat2 lng2 : float) :
  haversine_a lat1 lng1 lat2 lng2 = haversine_a lat2 lng2 lat1 lng1.
Proof.
  unfold haversine_a.
  rewrite (mul_comm (Math_cos (radians lat2)) (Math_cos (radians lat1))).
  destruct (radians_swap lat2 lat1) as [-> | ->],
           (radians_swap lng2 lng1) as [-> | ->];
    now rewrite ?sin_half_square_opp, ?sin_half_opp.
Qed.

Lemma calculateDistance_haversine (lat1 lng1 lat2 lng2 : float) :
  calculateDistance lat1 lng1 lat2 lng2 = haversine lat1 lng1 lat2 lng2.
Proof. reflexivity. Qed.

Lemma PI_within : within false 2 (Prim2SF PI).
Proof. vm_compute. split; [reflexivity|discriminate]. Qed.

Lemma radians_finite (x c : float) (mc : positive) (ec : Z) :
  Prim2SF c = S754_finite false mc ec -> (-900 <= ec <= 0)%Z ->
  (abs x <=? c) = true -> is_finite (radians x) = true.
Proof.
  intros C R H. destruct (abs_le_within x c mc ec C H) as [s W].
  pose proof (mul_within x PI s false _ _ W PI_within) as W1.
  assert (W2 := div_within (x * PI) 180 _ false _ 6333186975989760%positive (-45)%Z
                  eq_refl (W1 ltac:(lia)) ltac:(lia)).
  exact (within_finite _ _ _ W2).
Qed.

Lemma cos_square_zero (x : float) :
  is_finite x = true -> Math_cos x * Math_cos x * 0 = 0.
Proof.
  intro F. pose proof (Math_cos_range x F) as H.
  destruct (abs_le_within (Math_cos x) 1 4503599627370496%positive (-52)%Z eq_refl H)
    as [s W].
  pose proof (mul_within _ _ _ _ _ _ W W ltac:(lia)) as W2.
  rewrite xorb_nilpotent in W2. exact (within_mul_zero _ _ W2).
Qed.

Lemma haversine_a_same (lat0 lng0 : float) :
  (abs lat0 <=? 90) = true -> (abs lng0 <=? 180) = true ->
  haversine_a lat0 lng0 lat0 lng0 = 0.
Proof.
  intros Hlat Hlng. unfold haversine_a.
  destruct (abs_le_within lat0 90 6333186975989760%positive (-46)%Z eq_refl Hlat) as [s1 W1].
  destruct (abs_le_within lng0 180 6333186975989760%positive (-45)%Z eq_refl Hlng) as [s2 W2].
  rewrite (within_sub_self _ _ _ W1), (within_sub_self _ _ _ W2).
  change (radians 0 / 2) with 0. rewrite Math_sin_zero.
  rewrite (cos_square_zero (radians lat0)).
  - reflexivity.
  - now apply (radians_finite lat0 90 6333186975989760%positive (-46)%Z).
Qed.

Lemma calculateDistance_same (lat0 lng0 : float) :
  (abs lat0 <=? 90) = true -> (abs lng0 <=? 180) = true ->
  calculateDistance lat0 lng0 lat0 lng0 = 0.
Proof.
  intros Hlat Hlng. rewrite calculateDistance_haversine. unfold haversine.
  rewrite (haversine_a_same lat0 lng0 Hlat Hlng).
  change (sqrt 0) with 0. change (sqrt (1 - 0)) with 1.
  now rewrite Math_atan2_zero.
Qed.

End Laws.

(** *** Near the antipodes *)

Lemma tabulated_laws : MathLaws tabulated.
Proof.
  split.
  - intro x. cbn [Math_sin tabulated]. rewrite abs_opp.
    destruct (abs x =? _); [apply div_opp_l|].
    destruct (abs x =? _); [now rewrite div_opp_l, mul_opp_l|reflexivity].
  - reflexivity.
  - intros x _. cbn [Math_cos tabulated]. now destruct (abs x =? _).
  - reflexivity.
Qed.

Lemma tabulated_values : AntipodalValues tabulated.
Proof.
  split; try reflexivity. intro y. apply div_nan_r.
Qed.

Section Antipodes.
Context {M : MathObject} {L : MathLaws M} {V : AntipodalValues M}.

Lemma Math_sin_small_opp :
  Math_sin (-0x1.657184ae74487p-5) = -0x1.65547c4694e11p-5.
Proof.
  change (-0x1.657184ae74487p-5) with (opp 0x1.657184ae74487p-5).
  now rewrite Math_sin_odd, Math_sin_small.
Qed.

(** Rounded to binary64, [sin^2 + cos^2] of 2.5 degrees exceeds 1 by one
    unit in the last place. *)
Lemma haversine_a_antipodes :
  haversine_a (lat gulfOfGuinea) (lng gulfOfGuinea)
              (lat gilbertIslands) (lng gilbertIslands) = 0x1.0000000000001p+0.
Proof.
  unfold haversine_a.
  change (radians (lat gilbertIslands - lat gulfOfGuinea) / 2)
    with (-0x1.657184ae74487p-5).
  change (radians (lng gilbertIslands - lng gulfOfGuinea) / 2)
    with 0x1.921fb54442d18p+0.
  change (radians (lat gulfOfGuinea)) with 0x1.657184ae74487p-5.
  change (radians (lat gilbertIslands)) with (-0x1.657184ae74487p-5).
  rewrite Math_sin_small_opp, Math_sin_half_pi, Math_cos_small, Math_cos_small_opp.
  reflexivity.
Qed.

Lemma calculateDistance_antipodes :
  is_nan (calculateDistance (lat gulfOfGuinea) (lng gulfOfGuinea)
                            (lat gilbertIslands) (lng gilbertIslands)) = true.
Proof.
  rewrite calculateDistance_haversine. unfold haversine.
  rewrite haversine_a_antipodes.
  change (sqrt (1 - 0x1.0000000000001p+0)) with nan.
  now rewrite Math_atan2_nan.
Qed.
End Antipodes.


End Distance.

(** ** The scoring function *)

Module Scoring.
Import JS TriageMapRouter FloatFacts Spec Examples.
Local Open Scope float_scope.

Lemma bonus_of_falsy (n : float) :
  ToBoolean_number n = false -> (50 <? n) = false.
Proof.
  unfold ToBoolean_number. intro H. apply negb_false_iff in H.
  now apply ltb_falsy.
Qed.

Lemma popularityBonus_eq (p : PlaceResult) :
  (if 50 <? number_or (user_ratings_total p) 0 then 1 else 0) = popularityBonus p.
Proof.
  unfold popularityBonus, number_or.
  destruct (user_ratings_total p) as [n|]; [|reflexivity].
  destruct (ToBoolean_number n) eqn:T; [reflexivity|].
  now rewrite (bonus_of_falsy n T).
Qed.

Lemma ratingOrDefault_eq (p : PlaceResult) :
  number_or (rating p) 3 = ratingOrDefault p.
Proof.
  unfold ratingOrDefault, number_or, ToBoolean_number.
  destruct (rating p) as [r|]; [|reflexivity].
  now destruct (is_zero r || is_nan r).
Qed.

Lemma Math_max_tenth (d : float) :
  is_nan d = false -> Math_max d tenth = if d <? tenth then tenth else d.
Proof.
  intro N. unfold Math_max. rewrite N.
  change (is_nan tenth) with false. simpl orb. cbv iota.
  destruct (d <? tenth) eqn:A; [reflexivity|].
  destruct (tenth <? d); [reflexivity|].
  destruct (is_zero d) eqn:Z; [|reflexivity].
  apply is_zero_spec in Z. destruct Z as [s Z].
  rewrite ltb_spec, Z in A. discriminate.
Qed.

(** The scenario of the specification: 1.0 km, rating 4.5 and 120 reviews
    score 10.5; 0.5 km, rating 3.0 and 10 reviews score 13.0. *)
Example score_scenario :
  calculateScore (placeRated (Some 4.5) (Some 120)) 1 = 10.5 /\
  calculateScore (placeRated (Some 3) (Some 10)) 0.5 = 13.
Proof. split; reflexivity. Qed.

(** C2, as the code has it: the score is [5 / max(d, 0.1) + r + b] where [r]
    is the rating when it is present and neither zero nor [NaN], and 3 when
    it is absent, zero or [NaN], and [b] is 1 when the review count is above
    50 and 0 otherwise (also when it is absent); for a distance that is a
    number, [max(d, 0.1)] is [0.1] below [0.1] and [d] otherwise. *)
Theorem score_formula (p : PlaceResult) (d : float) :
  calculateScore p d = 5 / Math_max d tenth + ratingOrDefault p + popularityBonus p /\
  (rating p = None -> ratingOrDefault p = 3) /\
  (forall r, rating p = Some r -> ToBoolean_number r = true -> ratingOrDefault p = r) /\
  (forall r, rating p = Some r -> ToBoolean_number r = false -> ratingOrDefault p = 3) /\
  (is_nan d = false -> Math_max d tenth = if d <? tenth then tenth else d).
Proof.
  split; [|split; [|split; [|split]]].
  - unfold calculateScore. fold tenth.
    now rewrite ratingOrDefault_eq, popularityBonus_eq.
  - unfold ratingOrDefault. now intros ->.
  - unfold ratingOrDefault, ToBoolean_number. intros r -> T.
    apply negb_true_iff in T. now rewrite T.
  - unfold ratingOrDefault, ToBoolean_number. intros r -> T.
    apply negb_false_iff in T. now rewrite T.
  - apply Math_max_tenth.
Qed.

(** C2 as stated fails on a candidate whose rating is 0: at a distance of
    1 km the code scores it 5 + 3 + 0 = 8, the stated formula 5 + 0 + 0 = 5. *)
Lemma zero_rating_counterexample :
  calculateScore (placeRated (Some 0) None) 1 = 8 /\
  claimedScore (placeRated (Some 0) None) 1 = 5 /\
  calculateScore (placeRated (Some 0) None) 1
  <> claimedScore (placeRated (Some 0) None) 1.
Proof.
  split; [reflexivity|]. split; [reflexivity|].
  intro H. apply (f_equal (fun x => x <? 6)) in H. vm_compute in H. discriminate.
Qed.

End Scoring.

(** ** The order of the second sort *)

Module Ordering.
Import JS TriageMapRouter FloatFacts Spec Examples.
Local Open Scope float_scope.

(** A sort whose comparator separates two classes of elements puts the
    first class before the second, whatever it answers inside a class. *)
Section TwoClasses.
Context {A : Type} (cmp : A -> A -> float) (known first : A -> bool).
Hypothesis first_stays :
  forall x y, known x = true -> known y = true ->
              first x = true -> first y = false -> sorts_after cmp x y = false.
Hypothesis second_moves :
  forall x y, known x = true -> known y = true ->
              first x = false -> first y = true -> sorts_after cmp x y = true.

Lemma insert_first (x : A) (l1 l2 : list A) :
  known x = true -> first x = true ->
  Forall (fun y => known y = true) (l1 ++ l2) ->
  Forall (fun y => first y = true) l1 -> Forall (fun y => first y = false) l2 ->
  exists l1', insert cmp x (l1 ++ l2) = l1' ++ l2 /\ Forall (fun y => first y = true) l1'.
Proof.
  intros Kx Fx. induction l1 as [|y l1 IH]; intros K H1 H2.
  - exists [x]. split; [|now constructor].
    destruct l2 as [|y l2]; [reflexivity|]. simpl.
    now rewrite (first_stays x y Kx (Forall_inv K) Fx (Forall_inv H2)).
  - simpl. destruct (sorts_after cmp x y).
    + destruct (IH (Forall_inv_tail K) (Forall_inv_tail H1) H2) as (l1' & E & F).
      exists (y :: l1'). rewrite E. split; [reflexivity|].
      constructor; [exact (Forall_inv H1)|exact F].
    + exists (x :: y :: l1). split; [reflexivity|].
      constructor; [exact Fx|exact H1].
Qed.

Lemma insert_second (x : A) (l1 l2 : list A) :
  known x = true -> first x = false ->
  Forall (fun y => known y = true) (l1 ++ l2) ->
  Forall (fun y => first y = true) l1 -> Forall (fun y => first y = false) l2 ->
  exists l2', insert cmp x (l1 ++ l2) = l1 ++ l2' /\ Forall (fun y => first y = false) l2'.
Proof.
  intros Kx Fx. induction l1 as [|y l1 IH]; intros K H1 H2.
  - exists (insert cmp x l2). split; [reflexivity|].
    eapply Permutation_Forall; [apply insert_perm|]. now constructor.
  - simpl.
    rewrite (second_moves x y Kx (Forall_inv K) Fx (Forall_inv H1)).
    destruct (IH (Forall_inv_tail K) (Forall_inv_tail H1) H2) as (l2' & E & F).
    exists l2'. now rewrite E.
Qed.

Lemma Array_sort_split (l : list A) :
  Forall (fun y => known y = true) l -> split_by_class first (Array_sort cmp l).
Proof.
  induction l as [|x l IH]; intro K.
  - exists [], []. now repeat constructor.
  - destruct (IH (Forall_inv_tail K)) as (l1 & l2 & E & F1 & F2). simpl.
    assert (K' : Forall (fun y => known y = true) (l1 ++ l2)).
    { rewrite <- E. eapply Permutation_Forall;
        [apply Array_sort_perm|exact (Forall_inv_tail K)]. }
    rewrite E. destruct (first x) eqn:Fx.
    + destruct (insert_first x l1 l2 (Forall_inv K) Fx K' F1 F2) as (l1' & E' & F').
      exists l1', l2. now rewrite E'.
    + destruct (insert_second x l1 l2 (Forall_inv K) Fx K' F1 F2) as (l2' & E' & F').
      exists l1, l2'. now rewrite E'.
Qed.
End TwoClasses.

(** With the urgency 'emergency' the second sort puts every open candidate
    before every candidate that is not known to be open. *)
Lemma emergency_sort_open_first (tr : option TriageResult) (l : list ScoredPlace) :
  is_emergency tr = true ->
  split_by_class isOpen_true (Array_sort (comparePlaces tr) l).
Proof.
  intro E. apply (Array_sort_split (comparePlaces tr) (fun _ => true) isOpen_true).
  - intros x y _ _ Fx Fy. unfold sorts_after, comparePlaces. now rewrite E, Fx, Fy.
  - intros x y _ _ Fx Fy. unfold sorts_after, comparePlaces. now rewrite E, Fx, Fy.
  - now apply Forall_forall.
Qed.

(** Without unknown statuses the second sort puts every open candidate
    before every closed one, for every urgency. *)
Lemma known_sort_open_first (tr : option TriageResult) (l : list ScoredPlace) :
  Forall (fun p => known_status p = true) l ->
  split_by_class isOpen_true (Array_sort (comparePlaces tr) l).
Proof.
  apply (Array_sort_split (comparePlaces tr) known_status isOpen_true).
  - intros x y Kx Ky Fx Fy. unfold sorts_after, comparePlaces.
    unfold known_status, isOpen_true, isOpen_false in *.
    destruct (isOpen x) as [[|]|], (isOpen y) as [[|]|]; try discriminate.
    now destruct (is_emergency tr).
  - intros x y Kx Ky Fx Fy. unfold sorts_after, comparePlaces.
    unfold known_status, isOpen_true, isOpen_false in *.
    destruct (isOpen x) as [[|]|], (isOpen y) as [[|]|]; try discriminate.
    now destruct (is_emergency tr).
Qed.

Ltac sort_steps :=
  repeat (progress (cbn [Array_sort insert score]; unfold sorts_after, comparePlaces;
                    cbn [is_emergency urgency_of routine urgency String.eqb Ascii.eqb
                         Bool.eqb andb isOpen_true isOpen_false isOpen negb score];
                    rewrite ?sub_self_not_positive)).

(** Three candidates at one place with one rating reach the second sort in
    the order of the search, whatever the engine's functions and the user's
    location; with "A" closed, "B" unknown and "C" open the stored list is
    closed, unknown, open. *)
Lemma pipeline_closed_first (M : MathObject) (userLoc : LatLng) (st : State) :
  map (fun p => (place_id (place p), isOpen p))
      (places (processResults userLoc routine hoursService
                 [hospital "A"; hospital "B"; hospital "C"] st))
  = [("A"%string, Some false); ("B"%string, None); ("C"%string, Some true)].
Proof.
  rewrite Ranking.processResults_places.
  unfold placesWithDetails, initialScored.
  cbn [flat_map scorePlace hospital geometry app lat lng].
  set (d := calculateDistance _ _ _ _).
  unfold calculateScore. cbn [rating user_ratings_total].
  set (s := _ + _ + _).
  sort_steps.
  cbn [is_emergency urgency_of routine urgency String.eqb Ascii.eqb Bool.eqb slice0 firstn].
  cbn [mapi mapi_from place place_id getDetails hoursService hospital
       String.eqb Ascii.eqb Bool.eqb].
  cbn [resolveDetails hours details details_status opening_hours isOpen_method].
  unfold finalPlaces, filteredPlaces.
  sort_steps.
  reflexivity.
Qed.

(** C3 at the failing input: for a non-emergency urgency and three enriched
    candidates of equal score, closed, unknown and open in that order, the
    comparator puts the open one before the closed one, yet the sort leaves
    the list as it is and the final list shows the closed facility first;
    the comparator is not transitive, so it orders nothing; and the whole
    pipeline, run on three candidates of one place and one rating, stores the
    closed facility before the open one. What the code does achieve: for
    'emergency' the sorted list is the open candidates followed by the
    others, and for every urgency a list without unknown statuses comes out
    open candidates first. *)
Theorem closed_sorts_before_open :
  (let c := facility "A" 5 (Some false) in
   let u := facility "B" 5 None in
   let o := facility "C" 5 (Some true) in
   comparePlaces routine o c = -1 /\
   Array_sort (comparePlaces routine) [c; u; o] = [c; u; o] /\
   finalPlaces routine [c; u; o] = [c; u; o]) /\
  (let o := facility "open" 1 (Some true) in
   let c := facility "closed" 3 (Some false) in
   let u := facility "unknown" 2 None in
   (comparePlaces routine o c <? 0) = true /\
   (comparePlaces routine c u <? 0) = true /\
   (comparePlaces routine u o <? 0) = true) /\
  (forall (M : MathObject) userLoc st,
      map (fun p => (place_id (place p), isOpen p))
          (places (processResults userLoc routine hoursService
                     [hospital "A"; hospital "B"; hospital "C"] st))
      = [("A"%string, Some false); ("B"%string, None); ("C"%string, Some true)]) /\
  (forall tr l,
      is_emergency tr = true ->
      split_by_class isOpen_true (Array_sort (comparePlaces tr) l)) /\
  (forall tr l,
      Forall (fun p => known_status p = true) l ->
      split_by_class isOpen_true (Array_sort (comparePlaces tr) l)).
Proof.
  split; [repeat split|]. split; [repeat split|]. split; [|split].
  - intros M userLoc st. apply pipeline_closed_first.
  - apply emergency_sort_open_first.
  - apply known_sort_open_first.
Qed.

(** With the urgency 'emergency' the same candidates come out open first,
    and the closed one is dropped. *)
Example emergency_open_first :
  finalPlaces emergency
    [facility "A" 5 (Some false); facility "B" 5 None; facility "C" 5 (Some true)]
  = [facility "C" 5 (Some true); facility "B" 5 None].
Proof. reflexivity. Qed.

(** The scenario of the specification: among five candidates of an emergency
    search the closed one has the highest score and is left out of the three
    that remain. *)
Example emergency_scenario :
  finalPlaces emergency
    [facility "C" 9 (Some false); facility "D" 8 (Some true); facility "E" 7 None;
     facility "F" 6 (Some true); facility "G" 5 None]
  = [facility "D" 8 (Some true); facility "F" 6 (Some true); facility "E" 7 None].
Proof. reflexivity. Qed.

End Ordering.

(** ** The two phases, counted *)

Module Phases.
Import JS TriageMapRouter Spec Examples.

Lemma scored_places (M : MathObject) (userLoc : LatLng) (results : list PlaceResult) :
  map place (flat_map (scorePlace userLoc) results) = filter hasLocation results.
Proof.
  induction results as [|c results IH]; [reflexivity|].
  simpl. unfold scorePlace at 1, hasLocation at 1.
  destruct (geometry c); simpl; now rewrite IH.
Qed.

Lemma scored_unknown (M : MathObject) (userLoc : LatLng) (results : list PlaceResult) :
  Forall (fun q => hasLocation (place q) = true /\ isOpen q = None)
         (flat_map (scorePlace userLoc) results).
Proof.
  apply Forall_forall. intros q H. apply in_flat_map in H.
  destruct H as (c & _ & H). unfold scorePlace in H.
  destruct (geometry c) as [loc|] eqn:G; [|contradiction].
  destruct H as [<-|[]]. unfold hasLocation. simpl. now rewrite G.
Qed.

Lemma slice0_Forall {A : Type} (P : A -> Prop) (n : nat) (l : list A) :
  Forall P l -> Forall P (slice0 n l).
Proof.
  intro H. apply Forall_forall. intros x Hx.
  apply slice0_In in Hx. revert x Hx. now apply Forall_forall.
Qed.

Lemma initialScored_unknown (M : MathObject) userLoc tr results :
  Forall (fun q => hasLocation (place q) = true /\ isOpen q = None)
         (initialScored userLoc tr results).
Proof.
  apply slice0_Forall.
  eapply Permutation_Forall; [apply Array_sort_perm|apply scored_unknown].
Qed.

Lemma initialScored_length (M : MathObject) userLoc tr results :
  List.length (initialScored userLoc tr results)
  = Nat.min (preFilterCap tr) (List.length (filter hasLocation results)).
Proof.
  unfold initialScored, slice0, preFilterCap.
  rewrite length_firstn, Array_sort_length.
  now rewrite <- (scored_places M userLoc results), length_map.
Qed.

Lemma placesWithDetails_length (M : MathObject) userLoc tr service results :
  List.length (placesWithDetails userLoc tr service results)
  = Nat.min (preFilterCap tr) (List.length (filter hasLocation results)).
Proof.
  unfold placesWithDetails, mapi. rewrite mapi_from_length.
  apply initialScored_length.
Qed.

Lemma filter_all {A : Type} (l : list A) : filter (fun _ => true) l = l.
Proof. induction l as [|x l IH]; simpl; congruence. Qed.

Lemma filter_length_perm {A : Type} (f : A -> bool) (l l' : list A) :
  Permutation l l' -> List.length (filter f l) = List.length (filter f l').
Proof.
  induction 1; simpl.
  - reflexivity.
  - destruct (f x); simpl; congruence.
  - destruct (f x), (f y); reflexivity.
  - congruence.
Qed.

Lemma finalPlaces_count (tr : option TriageResult) (pwd : list ScoredPlace) :
  List.length (finalPlaces tr pwd)
  = Nat.min (resultCap tr) (List.length (filter (keepPlace tr) pwd)).
Proof.
  unfold finalPlaces, filteredPlaces, slice0, resultCap.
  rewrite length_firstn. f_equal.
  symmetry. apply filter_length_perm, Array_sort_perm.
Qed.

Lemma keepPlace_routine (tr : option TriageResult) (pwd : list ScoredPlace) :
  is_emergency tr = false -> filter (keepPlace tr) pwd = pwd.
Proof.
  intro E. unfold keepPlace. rewrite E. apply filter_all.
Qed.

(** X6: the first phase keeps the located candidates up to its cap of 6 or 8,
    so that many detail lookups are sent and no more; each kept candidate
    has a location and an unknown status; and the cap of the second phase is
    within that of the first. *)
Theorem lookups_bounded (M : MathObject) userLoc tr service results :
  List.length (detailsPromises service (initialScored userLoc tr results))
  = Nat.min (if is_emergency tr then 6 else 8)
            (List.length (filter hasLocation results)) /\
  Forall (fun q => hasLocation (place q) = true /\ isOpen q = None)
         (initialScored userLoc tr results) /\
  (if is_emergency tr then 3 else 5) <= (if is_emergency tr then 6 else 8).
Proof.
  split; [|split].
  - unfold detailsPromises, mapi. rewrite mapi_from_length.
    apply initialScored_length.
  - apply initialScored_unknown.
  - destruct (is_emergency tr); lia.
Qed.

(** X7: the stored list has exactly as many entries as the cap allows among the
    enriched candidates the filter keeps; for an urgency other than
    'emergency' nothing is filtered, so it has min(5, n) entries for n
    located search results, closed ones included. *)
Theorem stored_count (M : MathObject) userLoc tr service results st :
  List.length (places (processResults userLoc tr service results st))
  = Nat.min (if is_emergency tr then 3 else 5)
            (List.length (filter (keepPlace tr)
                            (placesWithDetails userLoc tr service results))) /\
  (is_emergency tr = false ->
   List.length (places (processResults userLoc tr service results st))
   = Nat.min 5 (List.length (filter hasLocation results))).
Proof.
  rewrite Ranking.processResults_places, finalPlaces_count. split; [reflexivity|].
  intro E. rewrite (keepPlace_routine tr _ E), placesWithDetails_length.
  unfold resultCap, preFilterCap. rewrite E. lia.
Qed.

End Phases.

(** ** The stored list *)

Module Listing.
Import JS TriageMapRouter Spec Examples Phases.

(** *** Identifiers *)

Lemma NoDup_map_filter {A B : Type} (f : A -> B) (g : A -> bool) (l : list A) :
  NoDup (map f l) -> NoDup (map f (filter g l)).
Proof.
  induction l as [|x l IH]; simpl; intro H; [constructor|].
  apply NoDup_cons_iff in H. destruct H as [N H].
  destruct (g x); simpl; [|now apply IH].
  constructor; [|now apply IH].
  intro I. apply N. apply in_map_iff in I. destruct I as (y & E & I).
  apply filter_In in I. apply in_map_iff. exists y. tauto.
Qed.

Lemma NoDup_slice0 {A : Type} (n : nat) (l : list A) :
  NoDup l -> NoDup (slice0 n l).
Proof.
  unfold slice0. intro H. rewrite <- (firstn_skipn n l) in H.
  now apply NoDup_app_remove_r in H.
Qed.

Lemma ids_slice0 (n : nat) (l : list ScoredPlace) :
  ids (slice0 n l) = slice0 n (ids l).
Proof. unfold ids, slice0. symmetry. apply firstn_map. Qed.

Lemma ids_sort (cmp : ScoredPlace -> ScoredPlace -> float) (l : list ScoredPlace) :
  Permutation (ids l) (ids (Array_sort cmp l)).
Proof. unfold ids. apply Permutation_map, Array_sort_perm. Qed.

Lemma ids_mapi_from (g : nat -> ScoredPlace -> ScoredPlace) (l : list ScoredPlace) (i : nat) :
  (forall j q, place_id (place (g j q)) = place_id (place q)) ->
  ids (mapi_from i g l) = ids l.
Proof.
  intro H. revert i. induction l as [|q l IH]; intro i; [reflexivity|].
  simpl. unfold ids in *. simpl. now rewrite H, IH.
Qed.

Lemma initialScored_ids (M : MathObject) userLoc tr results :
  NoDup (map place_id results) -> NoDup (ids (initialScored userLoc tr results)).
Proof.
  intro H. unfold initialScored. rewrite ids_slice0. apply NoDup_slice0.
  eapply Permutation_NoDup; [apply ids_sort|].
  unfold ids. rewrite <- (map_map place place_id), scored_places.
  now apply NoDup_map_filter.
Qed.

(** X8: if the search results carry pairwise distinct identifiers, so does the
    stored list (the identifiers are the keys of the list entries). *)
Theorem stored_ids_distinct (M : MathObject) userLoc tr service results st :
  NoDup (map place_id results) ->
  NoDup (ids (places (processResults userLoc tr service results st))).
Proof.
  intro H. rewrite Ranking.processResults_places.
  unfold finalPlaces, filteredPlaces. rewrite ids_slice0. apply NoDup_slice0.
  unfold ids at 1. apply NoDup_map_filter. fold (ids (Array_sort (comparePlaces tr)
    (placesWithDetails userLoc tr service results))).
  eapply Permutation_NoDup; [apply ids_sort|].
  unfold placesWithDetails, mapi. rewrite ids_mapi_from.
  - now apply initialScored_ids.
  - intros j q. apply Ranking.resolveDetails_frame.
Qed.

(** *** Markers *)

Lemma markerOf_labels (l : list ScoredPlace) (i : nat) :
  map marker_label (mapi_from i markerOf l) = seq (i + 1) (List.length l).
Proof.
  revert i. induction l as [|p l IH]; intro i; [reflexivity|].
  simpl. rewrite IH. reflexivity.
Qed.

Lemma markerOf_titles (l : list ScoredPlace) (i : nat) :
  map marker_title (mapi_from i markerOf l) = map (fun p => name (place p)) l /\
  map marker_position (mapi_from i markerOf l) = map (fun p => geometry (place p)) l.
Proof.
  revert i. induction l as [|p l IH]; intro i; [now split|].
  destruct (IH (S i)) as [E1 E2]. simpl. now rewrite E1, E2.
Qed.

Lemma showPlaces_markers tr pwd st :
  markers (showPlaces tr pwd st) = markers st ++ mapi markerOf (finalPlaces tr pwd) /\
  places (showPlaces tr pwd st) = finalPlaces tr pwd.
Proof. now split. Qed.

Lemma turn_settled {M : MathObject} (r : SearchRun) (st : State) :
  turn (DetailsSettled r) st
  = showPlaces (run_triage r)
      (placesWithDetails (run_location r) (run_triage r) (run_service r) (run_results r))
      st.
Proof.
  unfold turn. now rewrite Ranking.detailsPromises_fulfilled.
Qed.

Lemma alone_markers {M : MathObject} (r : SearchRun) (st : State) :
  markers (alone r st)
  = mapi markerOf
      (finalPlaces (run_triage r)
         (placesWithDetails (run_location r) (run_triage r) (run_service r) (run_results r))) /\
  places (alone r st)
  = finalPlaces (run_triage r)
      (placesWithDetails (run_location r) (run_triage r) (run_service r) (run_results r)).
Proof. unfold alone. now rewrite Ranking.processResults_eq. Qed.

Lemma alone_turns {M : MathObject} (r : SearchRun) (st : State) :
  runTurns [ResultsDelivered r; DetailsSettled r] st = alone r st.
Proof.
  unfold alone. rewrite Ranking.processResults_eq.
  unfold runTurns. cbn [fold_left]. now rewrite turn_settled.
Qed.

Lemma alone_labels {M : MathObject} (r : SearchRun) (st : State) :
  map marker_label (markers (alone r st)) = seq 1 (List.length (places (alone r st))).
Proof.
  destruct (alone_markers r st) as [-> ->]. apply (markerOf_labels _ 0).
Qed.

(** X9: a search that runs to its end with no other search in between
    leaves the markers of its stored list and no others, whatever markers
    were there before: one per entry, in order, labelled 1, 2, ... and
    carrying the entry's name and location.  When the results of a second
    search arrive while lookups of the first are pending, its markers are
    not cleared: once both searches have settled the markers of both are
    there, in the order in which the searches settled, beside the one list
    of the search that settled last.  Another turn can come between the two
    turns of a search only while that search has a lookup to wait for. *)
Theorem markers_of_searches (M : MathObject) :
  (forall r st, runTurns [ResultsDelivered r; DetailsSettled r] st = alone r st) /\
  (forall r st,
      map marker_label (markers (alone r st))
      = seq 1 (List.length (places (alone r st))) /\
      map marker_title (markers (alone r st))
      = map (fun p => name (place p)) (places (alone r st)) /\
      map marker_position (markers (alone r st))
      = map (fun p => geometry (place p)) (places (alone r st))) /\
  (forall r1 r2 st,
      awaitsLookups r1 = true -> awaitsLookups r2 = true ->
      places (runTurns (overlapped r1 r2) st) = places (alone r2 st) /\
      markers (runTurns (overlapped r1 r2) st)
      = markers (alone r1 st) ++ markers (alone r2 st) /\
      map marker_label (markers (runTurns (overlapped r1 r2) st))
      = seq 1 (List.length (places (alone r1 st)))
        ++ seq 1 (List.length (places (alone r2 st)))) /\
  (forall r1 r2 st,
      awaitsLookups r1 = true ->
      places (runTurns (overtaken r1 r2) st) = places (alone r1 st) /\
      markers (runTurns (overtaken r1 r2) st)
      = markers (alone r2 st) ++ markers (alone r1 st) /\
      map marker_label (markers (runTurns (overtaken r1 r2) st))
      = seq 1 (List.length (places (alone r2 st)))
        ++ seq 1 (List.length (places (alone r1 st)))).
Proof.
  split; [exact alone_turns|split; [|split]].
  - intros r st. split; [apply alone_labels|].
    destruct (alone_markers r st) as [-> ->]. apply markerOf_titles.
  - intros r1 r2 st _ _.
    assert (E : markers (runTurns (overlapped r1 r2) st)
                = markers (alone r1 st) ++ markers (alone r2 st)).
    { destruct (alone_markers r1 st) as [-> _], (alone_markers r2 st) as [-> _].
      unfold overlapped, runTurns. cbn [fold_left]. now rewrite !turn_settled. }
    split; [|split; [exact E|]].
    + destruct (alone_markers r2 st) as [_ ->].
      unfold overlapped, runTurns. cbn [fold_left]. now rewrite !turn_settled.
    + now rewrite E, map_app, !alone_labels.
  - intros r1 r2 st _.
    assert (E : markers (runTurns (overtaken r1 r2) st)
                = markers (alone r2 st) ++ markers (alone r1 st)).
    { destruct (alone_markers r1 st) as [-> _], (alone_markers r2 st) as [-> _].
      unfold overtaken, runTurns. cbn [fold_left]. now rewrite !turn_settled. }
    split; [|split; [exact E|]].
    + destruct (alone_markers r1 st) as [_ ->].
      unfold overtaken, runTurns. cbn [fold_left]. now rewrite !turn_settled.
    + now rewrite E, map_app, !alone_labels.
Qed.

(** *** The emergency list *)

Lemma split_filter {A : Type} (first f : A -> bool) (l : list A) :
  split_by_class first l -> split_by_class first (filter f l).
Proof.
  intros (l1 & l2 & -> & F1 & F2). exists (filter f l1), (filter f l2).
  rewrite filter_app. split; [reflexivity|].
  split; apply Forall_forall; intros x Hx; apply filter_In in Hx;
    destruct Hx as [Hx _]; revert x Hx; now apply Forall_forall.
Qed.

Lemma split_slice0 {A : Type} (first : A -> bool) (n : nat) (l : list A) :
  split_by_class first l -> split_by_class first (slice0 n l).
Proof.
  intros (l1 & l2 & -> & F1 & F2). unfold slice0. rewrite firstn_app.
  exists (firstn n l1), (firstn (n - List.length l1) l2).
  split; [reflexivity|]. split; now apply (slice0_Forall _ _ _).
Qed.

Lemma finalPlaces_split (tr : option TriageResult) (pwd : list ScoredPlace) :
  is_emergency tr = true -> split_by_class isOpen_true (finalPlaces tr pwd).
Proof.
  intro E. unfold finalPlaces, filteredPlaces.
  apply split_slice0, split_filter. now apply Ordering.emergency_sort_open_first.
Qed.

(** X10: under the urgency 'emergency' the final list is the open facilities
    followed by those of unknown status, and nothing else. *)
Theorem emergency_open_then_unknown (tr : option TriageResult) (pwd : list ScoredPlace) :
  is_emergency tr = true ->
  exists opens unknowns,
    finalPlaces tr pwd = opens ++ unknowns /\
    Forall (fun p => isOpen p = Some true) opens /\
    Forall (fun p => isOpen p = None) unknowns.
Proof.
  intro E. destruct (finalPlaces_split tr pwd E) as (l1 & l2 & Eq & F1 & F2).
  exists l1, l2. split; [exact Eq|].
  assert (K : forall p, In p (l1 ++ l2) -> isOpen p <> Some false).
  { intros p Hp. rewrite <- Eq in Hp. apply Ranking.finalPlaces_In in Hp.
    now apply (Ranking.keepPlace_emergency tr p E). }
  split; apply Forall_forall; intros p Hp.
  - assert (T : isOpen_true p = true) by (revert p Hp; now apply Forall_forall).
    unfold isOpen_true in T. now destruct (isOpen p) as [[|]|].
  - assert (T : isOpen_true p = false) by (revert p Hp; now apply Forall_forall).
    assert (N : isOpen p <> Some false) by (apply K, in_or_app; now right).
    unfold isOpen_true in T. destruct (isOpen p) as [[|]|]; congruence.
Qed.

(** X11: when every status is known, the final list shows the open facilities
    before the closed ones, for every urgency. *)
Theorem known_statuses_open_first (tr : option TriageResult) (pwd : list ScoredPlace) :
  Forall (fun p => known_status p = true) pwd ->
  split_by_class isOpen_true (finalPlaces tr pwd).
Proof.
  intro K. unfold finalPlaces, filteredPlaces.
  apply split_slice0, split_filter. now apply Ordering.known_sort_open_first.
Qed.

Lemma filter_none {A : Type} (f : A -> bool) (l : list A) :
  Forall (fun x => f x = false) l -> filter f l = [].
Proof.
  induction 1 as [|x l Hx _ IH]; simpl; [reflexivity|]. now rewrite Hx.
Qed.

Lemma placesWithDetails_closed (M : MathObject) userLoc tr service results :
  all_closed service ->
  Forall (fun p => isOpen p = Some false) (placesWithDetails userLoc tr service results).
Proof.
  intro C. apply Forall_forall. intros p Hp.
  apply mapi_from_In in Hp. destruct Hp as (j & q & _ & ->).
  apply Ranking.resolveDetails_isOpen, C.
Qed.

(** X12: an emergency search whose candidates are all known to be closed stores
    the empty list, sets no error and ends the loading state: unless an
    error was already there, the screen shows neither a list nor an error. *)
Theorem emergency_all_closed_blank (M : MathObject) userLoc tr service results st :
  is_emergency tr = true -> all_closed service ->
  places (processResults userLoc tr service results st) = [] /\
  error (processResults userLoc tr service results st) = error st /\
  (error st = None ->
   exists s, render tr (processResults userLoc tr service results st) = MapScreen s /\
             loadingPanel s = false /\ errorPanel s = None /\ resultsPanel s = []).
Proof.
  intros E C.
  assert (P : places (processResults userLoc tr service results st) = []).
  { rewrite Ranking.processResults_places. unfold finalPlaces, filteredPlaces.
    rewrite filter_none; [apply firstn_nil|].
    eapply Permutation_Forall; [apply Array_sort_perm|].
    eapply Forall_impl; [|apply (placesWithDetails_closed M userLoc tr service results C)].
    intros p Hp. unfold keepPlace, isOpen_false. now rewrite E, Hp. }
  split; [exact P|]. split; [now rewrite Ranking.processResults_eq|].
  intro N. destruct tr as [t|]; [|discriminate]. unfold render.
  eexists. split; [reflexivity|]. simpl. rewrite P.
  rewrite Ranking.processResults_eq. simpl. rewrite N. repeat split.
Qed.

(** *** Lookups that all fail *)

Lemma mapi_from_fixed {A : Type} (g : nat -> A -> A) (l : list A) (i : nat) :
  Forall (fun x => forall j, g j x = x) l -> mapi_from i g l = l.
Proof.
  intro H. revert i. induction H as [|x l Hx _ IH]; intro i; [reflexivity|].
  simpl. now rewrite Hx, IH.
Qed.

Lemma resolveDetails_failed (q : ScoredPlace) (r : DetailsResponse) :
  details_status r <> OK \/ details r = None ->
  isOpen q = None -> resolveDetails q r = q.
Proof.
  intros F N. unfold resolveDetails.
  destruct q as [pl d sc o]. simpl in N. subst o. simpl.
  destruct F as [F|F].
  - destruct (details_status r); try reflexivity. now elim F.
  - rewrite F. now destruct (details_status r).
Qed.

(** X13: when every detail lookup fails the enriched candidates are the
    candidates of the first phase unchanged, every stored status is unknown,
    and nothing is filtered out, under 'emergency' either: the list has
    min(cap, n) entries for n located search results. *)
Theorem failed_lookups_keep_ranking (M : MathObject) userLoc tr service results st :
  lookups_fail service ->
  placesWithDetails userLoc tr service results = initialScored userLoc tr results /\
  Forall (fun p => isOpen p = None)
         (places (processResults userLoc tr service results st)) /\
  List.length (places (processResults userLoc tr service results st))
  = Nat.min (if is_emergency tr then 3 else 5)
            (List.length (filter hasLocation results)).
Proof.
  intro F.
  assert (E : placesWithDetails userLoc tr service results
              = initialScored userLoc tr results).
  { unfold placesWithDetails, mapi. apply mapi_from_fixed.
    eapply Forall_impl; [|apply initialScored_unknown].
    intros q [_ N] j. now apply resolveDetails_failed. }
  assert (U : Forall (fun p => isOpen p = None)
                     (placesWithDetails userLoc tr service results)).
  { rewrite E. eapply Forall_impl; [|apply initialScored_unknown]. now intros q [_ N]. }
  split; [exact E|]. split.
  - rewrite Ranking.processResults_places. apply Forall_forall. intros p Hp.
    apply Ranking.finalPlaces_In in Hp. destruct Hp as [Hp _].
    revert p Hp. now apply Forall_forall.
  - rewrite Ranking.processResults_places, finalPlaces_count.
    assert (K : filter (keepPlace tr) (placesWithDetails userLoc tr service results)
                = placesWithDetails userLoc tr service results).
    { clear E. induction U as [|p l Hp _ IH]; [reflexivity|]. simpl.
      unfold keepPlace at 1, isOpen_false. rewrite Hp, IH. now destruct (is_emergency tr). }
    rewrite K, placesWithDetails_length. unfold resultCap, preFilterCap.
    destruct (is_emergency tr); lia.
Qed.

End Listing.

(** ** The effects, from mount to list *)

Module Startup.
Import JS TriageMapRouter Spec Examples Phases Listing.
Local Open Scope string_scope.

Lemma initEffect_initialises (browser : Browser) (st : State) :
  initialises browser = true ->
  initEffect browser st
  = set_userLocation (Some (getUserLocation (geolocation browser))) st.
Proof.
  unfold initialises, initEffect. intro H. apply andb_true_iff in H.
  destruct H as [K S]. rewrite K. simpl. now destruct (script browser).
Qed.

Lemma initEffect_fails (browser : Browser) (st : State) :
  initialises browser = false ->
  initEffect browser st
  = set_loading false
      (set_error
         (Some (if ToBoolean_string (GOOGLE_MAPS_KEY browser)
                then "Failed to load Google Maps"
                else "Google Maps API key is not configured")) st).
Proof.
  unfold initialises, initEffect. intro H.
  destruct (ToBoolean_string (GOOGLE_MAPS_KEY browser)); simpl in *; [|reflexivity].
  now destruct (script browser).
Qed.

(** X1: the first effect either reaches [setUserLocation], with the position
    the browser gave or the default one, and touches neither the error nor
    the loading flag; or it stops with an error and the loading flag off and
    no location: the key's message when the key is missing or empty (the
    script is then not looked at), the script's message otherwise. *)
Theorem init_outcome (browser : Browser) (st : State) :
  (initialises browser = true /\
   userLocation (initEffect browser st) = Some (getUserLocation (geolocation browser)) /\
   error (initEffect browser st) = error st /\
   loading (initEffect browser st) = loading st) \/
  (initialises browser = false /\
   userLocation (initEffect browser st) = userLocation st /\
   loading (initEffect browser st) = false /\
   error (initEffect browser st)
   = Some (if ToBoolean_string (GOOGLE_MAPS_KEY browser)
           then "Failed to load Google Maps"
           else "Google Maps API key is not configured")).
Proof.
  destruct (initialises browser) eqn:I.
  - left. rewrite (initEffect_initialises browser st I). repeat split.
  - right. rewrite (initEffect_fails browser st I). repeat split.
Qed.

Lemma searchEffect_run (M : MathObject) userLoc t service st :
  userLocation st = Some userLoc ->
  searchEffect true true (Some t) service st
  = if has_result_set (textSearch service (request userLoc t)) then
      processResults userLoc (Some t) service
        (results_of (textSearch service (request userLoc t))) (set_mapInstance true st)
    else if has_result_set (nearbySearch service (nearbyRequest userLoc (Some t))) then
      processResults userLoc (Some t) service
        (results_of (nearbySearch service (nearbyRequest userLoc (Some t))))
        (set_mapInstance true st)
    else set_loading false
           (set_error (Some "No hospitals found nearby") (set_mapInstance true st)).
Proof.
  intro U. unfold searchEffect. rewrite U. simpl andb. cbv iota.
  fold (nearbyRequest userLoc (Some t)).
  unfold has_result_set, results_of.
  destruct (search_status (textSearch service (request userLoc t)));
    destruct (search_results (textSearch service (request userLoc t)));
    try reflexivity;
    destruct (search_status (nearbySearch service (nearbyRequest userLoc (Some t))));
    destruct (search_results (nearbySearch service (nearbyRequest userLoc (Some t))));
    reflexivity.
Qed.

Lemma searchEffect_idle (M : MathObject) loaded mounted tr service st :
  userLocation st = None \/ tr = None \/ loaded = false \/ mounted = false ->
  searchEffect loaded mounted tr service st = st.
Proof.
  unfold searchEffect. intros [H|[H|[H|H]]].
  - now rewrite H.
  - rewrite H. now destruct (userLocation st).
  - rewrite H. destruct (userLocation st); [|reflexivity]. now destruct tr.
  - rewrite H. destruct (userLocation st); [|reflexivity]. destruct tr; [|reflexivity].
    now rewrite andb_false_r.
Qed.

Lemma firstMount_initialised (M : MathObject) browser t service :
  initialises browser = true ->
  firstMount browser (Some t) service
  = let loc := getUserLocation (geolocation browser) in
    if has_result_set (textSearch service (request loc t)) then
      processResults loc (Some t) service
        (results_of (textSearch service (request loc t))) (searchingState browser)
    else if has_result_set (nearbySearch service (nearbyRequest loc (Some t))) then
      processResults loc (Some t) service
        (results_of (nearbySearch service (nearbyRequest loc (Some t))))
        (searchingState browser)
    else set_loading false
           (set_error (Some "No hospitals found nearby") (searchingState browser)).
Proof.
  intro I. unfold firstMount. rewrite (initEffect_initialises _ _ I).
  unfold initialises in I. apply andb_true_iff in I. destruct I as [_ S].
  replace (match script browser with ScriptFails => false | _ => true end) with true
    by now destruct (script browser).
  now rewrite (searchEffect_run M (getUserLocation (geolocation browser)) t service
                 (set_userLocation (Some (getUserLocation (geolocation browser)))
                    initialState) eq_refl).
Qed.

Lemma firstMount_failed (M : MathObject) browser tr service :
  initialises browser = false ->
  firstMount browser tr service = initEffect browser initialState.
Proof.
  intro I. unfold firstMount. apply searchEffect_idle. left.
  now rewrite (initEffect_fails _ _ I).
Qed.

(** X3: after the first mount with a triage result the loading state has
    ended, whatever the browser and the services did; the error is unset
    exactly when the first effect got through and one of the two searches
    handed over a result set; and an error and a list are never on the
    screen together. *)
Theorem first_mount_outcome (M : MathObject) browser t service :
  let loc := getUserLocation (geolocation browser) in
  let st := firstMount browser (Some t) service in
  loading st = false /\
  (error st = None <->
   initialises browser = true /\
   has_result_set (textSearch service (request loc t))
   || has_result_set (nearbySearch service (nearbyRequest loc (Some t))) = true) /\
  (error st = None \/ places st = []) /\
  exists s, render (Some t) st = MapScreen s /\
            loadingPanel s = false /\
            (errorPanel s = None \/ resultsPanel s = []).
Proof.
  intros loc st.
  assert (H : loading st = false /\
              (error st = None <->
               initialises browser = true /\
               has_result_set (textSearch service (request loc t))
               || has_result_set (nearbySearch service (nearbyRequest loc (Some t))) = true) /\
              (error st = None \/ places st = [])).
  { subst st. destruct (initialises browser) eqn:I.
    - rewrite (firstMount_initialised M browser t service I). cbv zeta. fold loc.
      destruct (has_result_set (textSearch service (request loc t))); simpl orb.
      + rewrite Ranking.processResults_eq. simpl. repeat split; auto.
      + destruct (has_result_set (nearbySearch service (nearbyRequest loc (Some t)))).
        * rewrite Ranking.processResults_eq. simpl. repeat split; auto.
        * simpl. split; [reflexivity|]. split; [|now right].
          split; [discriminate|]. intros [_ F]. discriminate.
    - rewrite (firstMount_failed M browser (Some t) service I).
      rewrite (initEffect_fails browser initialState I). simpl.
      split; [reflexivity|]. split; [|now right].
      split; [discriminate|]. intros [F _]. discriminate. }
  destruct H as (L & E & X). repeat split; try tauto.
  eexists. split; [reflexivity|]. simpl. rewrite L. split; [reflexivity|].
  destruct X as [X|X]; [left; now rewrite X|right; now rewrite X].
Qed.

(** A listed facility comes from a search result with a location, keeps that
    location, and carries the distance from the location the search ran
    from. *)
Lemma stored_place_located (M : MathObject) userLoc tr service results st p :
  In p (places (processResults userLoc tr service results st)) ->
  exists loc,
    geometry (place p) = Some loc /\
    distance p = calculateDistance (lat userLoc) (lng userLoc) (lat loc) (lng loc).
Proof.
  rewrite Ranking.processResults_places. intro H.
  apply Ranking.finalPlaces_In in H. destruct H as [H _].
  apply mapi_from_In in H. destruct H as (j & q & Hq & ->).
  destruct (Ranking.resolveDetails_frame q (getDetails service j (place_id (place q))))
    as (_ & _ & G & _ & _ & _ & D & _).
  destruct (Ranking.initialScored_In _ _ _ _ Hq) as (c & loc & _ & Gc & Ec & _ & Ed & _).
  exists loc. rewrite G, D, Ec. split; assumption.
Qed.

Lemma firstMount_places (M : MathObject) browser t service p :
  In p (places (firstMount browser (Some t) service)) ->
  initialises browser = true /\
  exists results,
    In p (places (processResults (getUserLocation (geolocation browser)) (Some t) service
                    results (searchingState browser))) /\
    firstMount browser (Some t) service
    = processResults (getUserLocation (geolocation browser)) (Some t) service results
        (searchingState browser).
Proof.
  destruct (initialises browser) eqn:I.
  - rewrite (firstMount_initialised M browser t service I). cbv zeta.
    destruct (has_result_set (textSearch service _)).
    + intro H. split; [reflexivity|]. eexists. split; [exact H|reflexivity].
    + destruct (has_result_set (nearbySearch service _)).
      * intro H. split; [reflexivity|]. eexists. split; [exact H|reflexivity].
      * simpl. contradiction.
  - rewrite (firstMount_failed M browser (Some t) service I).
    rewrite (initEffect_fails browser initialState I). simpl. contradiction.
Qed.

(** X2: the first mount searches from the position the browser gives and, when
    geolocation is missing or fails, from the default location, without
    setting an error for it: every listed distance is the distance from that
    location to the facility. *)
Theorem distances_from_user_location (M : MathObject) browser t service p :
  In p (places (firstMount browser (Some t) service)) ->
  let origin0 :=
    match geolocation browser with
    | Position latitude longitude => {| lat := latitude; lng := longitude |}
    | _ => defaultLocation
    end in
  userLocation (firstMount browser (Some t) service) = Some origin0 /\
  error (firstMount browser (Some t) service) = None /\
  exists loc,
    geometry (place p) = Some loc /\
    distance p = calculateDistance (lat origin0) (lng origin0) (lat loc) (lng loc).
Proof.
  intros H origin0.
  assert (O : origin0 = getUserLocation (geolocation browser))
    by (subst origin0; now destruct (geolocation browser)).
  destruct (firstMount_places M browser t service p H) as (I & results & Hp & E).
  rewrite O, E. rewrite Ranking.processResults_eq. simpl.
  split; [reflexivity|]. split; [reflexivity|].
  exact (stored_place_located M _ (Some t) service results _ p Hp).
Qed.

(** X14: every facility listed after the first mount can be routed to: the map
    is there, the user's location is known and the facility has a location,
    so [showDirections] sends the request from the one to the other. *)
Theorem listed_places_routable (M : MathObject) browser t service p :
  In p (places (firstMount browser (Some t) service)) ->
  exists loc,
    geometry (place p) = Some loc /\
    requestFor (firstMount browser (Some t) service) p
    = Some {| origin := getUserLocation (geolocation browser); destination := loc |}.
Proof.
  intro H.
  destruct (firstMount_places M browser t service p H) as (I & results & Hp & E).
  destruct (stored_place_located M _ _ _ _ _ _ Hp) as (loc & G & _).
  exists loc. split; [exact G|].
  rewrite E. unfold requestFor. rewrite Ranking.processResults_eq. simpl. now rewrite G.
Qed.

(** X5: the nearby search is a fallback only: when the text search hands over a
    result set, the state after the effect is that of the pipeline on the
    text results, whatever the nearby search would answer; when it does not,
    the nearby results are processed, if there are any. *)
Theorem text_search_first (M : MathObject) userLoc t service st :
  userLocation st = Some userLoc ->
  (has_result_set (textSearch service (request userLoc t)) = true ->
   forall nearby',
     searchEffect true true (Some t)
       {| textSearch := textSearch service; nearbySearch := nearby';
          getDetails := getDetails service |} st
     = processResults userLoc (Some t) service
         (results_of (textSearch service (request userLoc t)))
         (set_mapInstance true st)) /\
  (has_result_set (textSearch service (request userLoc t)) = false ->
   has_result_set (nearbySearch service (nearbyRequest userLoc (Some t))) = true ->
   searchEffect true true (Some t) service st
   = processResults userLoc (Some t) service
       (results_of (nearbySearch service (nearbyRequest userLoc (Some t))))
       (set_mapInstance true st)).
Proof.
  intro U. split.
  - intros T nearby'. rewrite (searchEffect_run M userLoc t _ st U). simpl.
    now rewrite T.
  - intros T N. rewrite (searchEffect_run M userLoc t _ st U). now rewrite T, N.
Qed.

(** X4: without a triage result (no navigation state, or a state without one)
    the component returns the prompt whatever its state, the search effect
    does nothing, and after the first mount there is no map, no marker and no
    list. *)
Theorem no_triage_no_search (M : MathObject) locationState :
  Maps locationState = None ->
  (forall st, render (Maps locationState) st = NoTriagePrompt) /\
  (forall loaded mounted service st,
      searchEffect loaded mounted (Maps locationState) service st = st) /\
  (forall browser service,
      mapInstance (firstMount browser (Maps locationState) service) = false /\
      markers (firstMount browser (Maps locationState) service) = [] /\
      places (firstMount browser (Maps locationState) service) = []).
Proof.
  intros ->. split; [reflexivity|]. split.
  - intros. apply searchEffect_idle. right. now left.
  - intros browser service. unfold firstMount.
    rewrite searchEffect_idle by (right; now left).
    destruct (initialises browser) eqn:I.
    + now rewrite (initEffect_initialises _ _ I).
    + now rewrite (initEffect_fails _ _ I).
Qed.

End Startup.

(** ** The directions handlers *)

Module Routing.
Import JS TriageMapRouter Spec Examples.
Local Open Scope string_scope.

Lemma showDirections_sent route p st req :
  requestFor st p = Some req ->
  showDirections route p st
  = let st1 := match directionsRenderer st with
               | None => set_directionsRenderer (Some None) st
               | Some _ => st
               end in
    match route_status (route req) with
    | DIRECTIONS_OK =>
        let st2 := set_selectedPlace (Some p)
                     (set_directions (route_result (route req))
                        (set_directionsRenderer (Some (route_result (route req))) st1)) in
        match extractRouteInfo (route_result (route req)) with
        | Some info => (set_routeInfo (Some info) st2, Normal)
        | None => (st2, TypeError)
        end
    | _ => (st1, Normal)
    end.
Proof.
  unfold requestFor, showDirections. intro R.
  destruct (mapInstance st); [|discriminate].
  destruct (userLocation st) as [userLoc|]; [|discriminate].
  destruct (geometry (place p)) as [dest|]; [|discriminate].
  now injection R as <-.
Qed.

Lemma infoOf_steps (leg : DirectionsLeg) :
  map instruction (route_steps (infoOf leg)) = map instructions (leg_steps leg) /\
  map step_distance_text (route_steps (infoOf leg)) = map step_distance (leg_steps leg).
Proof. unfold infoOf. simpl. rewrite !map_map. now split. Qed.

Lemma showDirections_shown route p st req r rt rts leg lgs :
  requestFor st p = Some req ->
  route req = {| route_result := Some r; route_status := DIRECTIONS_OK |} ->
  routes r = rt :: rts -> legs rt = leg :: lgs ->
  showDirections route p st
  = (set_routeInfo (Some (infoOf leg))
       (set_selectedPlace (Some p)
          (set_directions (Some r)
             (set_directionsRenderer (Some (Some r))
                match directionsRenderer st with
                | None => set_directionsRenderer (Some None) st
                | Some _ => st
                end))), Normal).
Proof.
  intros R A Hr Hl. rewrite (showDirections_sent route p st req R).
  rewrite A. cbv zeta. cbn [route_status route_result extractRouteInfo].
  now rewrite Hr, Hl.
Qed.

(** X15: when the route computation answers OK with at least one route that has
    at least one leg, the call ends normally; the route info is that of the
    first leg of the first route, with one step per step of the leg, in
    order, whatever other routes and legs there are; the place becomes the
    selected one, the answer is stored and handed to the renderer, and the
    list, the markers, the error and the loading flag stay as they were. *)
Theorem directions_from_first_leg route p st req r rt rts leg lgs :
  requestFor st p = Some req ->
  route req = {| route_result := Some r; route_status := DIRECTIONS_OK |} ->
  routes r = rt :: rts -> legs rt = leg :: lgs ->
  let st' := fst (showDirections route p st) in
  snd (showDirections route p st) = Normal /\
  routeInfo st' = Some (infoOf leg) /\
  map instruction (route_steps (infoOf leg)) = map instructions (leg_steps leg) /\
  map step_distance_text (route_steps (infoOf leg)) = map step_distance (leg_steps leg) /\
  selectedPlace st' = Some p /\
  directions st' = Some r /\
  directionsRenderer st' = Some (Some r) /\
  places st' = places st /\ markers st' = markers st /\
  error st' = error st /\ loading st' = loading st /\
  userLocation st' = userLocation st.
Proof.
  intros R A Hr Hl st'. subst st'.
  rewrite (showDirections_shown route p st req r rt rts leg lgs R A Hr Hl).
  destruct (infoOf_steps leg) as [E1 E2].
  destruct (directionsRenderer st); simpl; repeat split; assumption.
Qed.

(** X16: when the route computation answers OK without a usable route (no
    result, no route, or a first route without a leg) the handler throws
    after it has already selected the place and stored the answer: the route
    info on display stays the previous one. *)
Theorem directions_without_route route p st req :
  requestFor st p = Some req ->
  route_status (route req) = DIRECTIONS_OK ->
  extractRouteInfo (route_result (route req)) = None ->
  let st' := fst (showDirections route p st) in
  snd (showDirections route p st) = TypeError /\
  routeInfo st' = routeInfo st /\
  selectedPlace st' = Some p /\
  directions st' = route_result (route req) /\
  directionsRenderer st' = Some (route_result (route req)) /\
  error st' = error st.
Proof.
  intros R S X st'. subst st'. rewrite (showDirections_sent route p st req R).
  cbv zeta. rewrite S, X. destruct (directionsRenderer st); simpl; repeat split.
Qed.

Lemma extractRouteInfo_none (result : option DirectionsResult) :
  extractRouteInfo result = None <->
  result = None \/
  (exists r, result = Some r /\ routes r = []) \/
  (exists r rt rts, result = Some r /\ routes r = rt :: rts /\ legs rt = []).
Proof.
  unfold extractRouteInfo. split.
  - destruct result as [r|]; [|now left].
    destruct (routes r) as [|rt rts] eqn:Hr; [right; left; now exists r|].
    destruct (legs rt) as [|leg lgs] eqn:Hl; [|discriminate].
    intros _. right. right. now exists r, rt, rts.
  - intros [->|[(r & -> & ->)|(r & rt & rts & -> & -> & ->)]]; reflexivity.
Qed.

(** X17: [clearDirections] removes the route info and the stored directions and
    hands the renderer, if there is one, an empty route set; the selected
    place, the list, the markers and the error stay; clearing twice is
    clearing once; and the directions panel is gone. *)
Theorem clear_directions (tr : option TriageResult) (st : State) :
  routeInfo (clearDirections st) = None /\
  directions (clearDirections st) = None /\
  directionsRenderer (clearDirections st)
  = match directionsRenderer st with
    | Some _ => Some (Some {| routes := [] |})
    | None => None
    end /\
  selectedPlace (clearDirections st) = selectedPlace st /\
  places (clearDirections st) = places st /\
  markers (clearDirections st) = markers st /\
  error (clearDirections st) = error st /\
  clearDirections (clearDirections st) = clearDirections st /\
  (forall s, render tr (clearDirections st) = MapScreen s -> directionsPanel s = None).
Proof.
  unfold clearDirections.
  destruct (directionsRenderer st) eqn:D; simpl; rewrite ?D; repeat split;
    intros s H; destruct tr; try discriminate; injection H as <-; reflexivity.
Qed.

(** X18: selecting another facility while directions are on display keeps the
    route info: the directions panel then names the newly selected facility
    in its heading over the route computed for the earlier one. *)
Theorem selection_keeps_route (tr : option TriageResult) route p q st req r rt rts leg lgs :
  requestFor st p = Some req ->
  route req = {| route_result := Some r; route_status := DIRECTIONS_OK |} ->
  routes r = rt :: rts -> legs rt = leg :: lgs ->
  let shown := fst (showDirections route p st) in
  routeInfo (selectPlace q shown) = Some (infoOf leg) /\
  selectedPlace (selectPlace q shown) = Some q /\
  (forall s, render tr shown = MapScreen s ->
             directionsPanel s = Some (Some (name (place p)), infoOf leg)) /\
  (forall s, render tr (selectPlace q shown) = MapScreen s ->
             directionsPanel s = Some (Some (name (place q)), infoOf leg)).
Proof.
  intros R A Hr Hl shown. subst shown.
  rewrite (showDirections_shown route p st req r rt rts leg lgs R A Hr Hl).
  split; [reflexivity|]. split; [reflexivity|].
  split; intros s H; destruct tr; try discriminate; injection H as <-; reflexivity.
Qed.

End Routing.

(** ** Across the component *)

Module Invariants.
Import JS TriageMapRouter Spec Examples Startup.
Local Open Scope string_scope.

Lemma searchEffect_error (M : MathObject) loaded mounted tr service st :
  error (searchEffect loaded mounted tr service st) = error st \/
  error (searchEffect loaded mounted tr service st) = Some "No hospitals found nearby".
Proof.
  destruct (Search.searchEffect_cases loaded mounted tr service st)
    as [E|(_ & _ & _ & _ & _ & _ & _ & _ & E)]; [now left|now right].
Qed.

(** X19: no operation of the component resets the error: once an error is set,
    the effects, the pipeline and the handlers leave an error in place. So a
    search that succeeds after one that failed is shown with the old error
    above its list. *)
Theorem error_never_cleared (M : MathObject) (st : State) :
  error st <> None ->
  (forall browser, error (initEffect browser st) <> None) /\
  (forall loaded mounted tr service,
      error (searchEffect loaded mounted tr service st) <> None) /\
  (forall userLoc tr service results,
      error (processResults userLoc tr service results st) = error st) /\
  (forall route p, error (fst (showDirections route p st)) = error st) /\
  error (clearDirections st) = error st /\
  (forall p, error (selectPlace p st) = error st) /\
  (forall userLoc t service results e,
      error st = Some e -> e <> "" ->
      places (processResults userLoc (Some t) service results st) <> [] ->
      exists s,
        render (Some t) (processResults userLoc (Some t) service results st) = MapScreen s /\
        errorPanel s = Some e /\
        resultsPanel s = places (processResults userLoc (Some t) service results st) /\
        resultsPanel s <> []).
Proof.
  intro N. split; [|split; [|split; [|split; [|split; [|split]]]]].
  - intro browser. unfold initEffect.
    destruct (negb _); [discriminate|].
    destruct (loadGoogleMaps _); [exact N|discriminate].
  - intros. destruct (searchEffect_error M loaded mounted tr service st) as [-> | ->];
      [exact N|discriminate].
  - intros. now rewrite Ranking.processResults_eq.
  - intros route p. unfold showDirections.
    destruct (mapInstance st); [|reflexivity].
    destruct (userLocation st); [|reflexivity].
    destruct (geometry (place p)); [|now destruct (directionsRenderer st)].
    destruct (route_status _); try (now destruct (directionsRenderer st)).
    destruct (extractRouteInfo _); now destruct (directionsRenderer st).
  - unfold clearDirections. now destruct (directionsRenderer st).
  - reflexivity.
  - intros userLoc t service results e E Ne P.
    eexists. split; [reflexivity|]. simpl.
    assert (L : loading (processResults userLoc (Some t) service results st) = false)
      by now rewrite Ranking.processResults_eq.
    assert (Er : error (processResults userLoc (Some t) service results st) = Some e)
      by now rewrite Ranking.processResults_eq.
    rewrite L, Er. simpl.
    destruct (String.eqb_spec e ""); [contradiction|]. simpl.
    destruct (places (processResults userLoc (Some t) service results st)) eqn:Pl;
      [now elim P|].
    simpl. repeat split; congruence.
Qed.

(** X20: the urgency tiers agree across the component: the radius is 20000
    exactly when the urgency is 'emergency', which is when the banner is
    shown, the colour is red, the caps are 6 and 3 and closed facilities are
    filtered; the colour is orange exactly for the radius 15000 and green
    exactly for 10000. *)
Theorem tiers_agree (tr : option TriageResult) :
  (is_emergency tr = true <-> getSearchRadius tr = 20000%Z) /\
  (is_emergency tr = true <-> bg (getUrgencyColor tr) = "bg-red-500") /\
  (getSearchRadius tr = 15000%Z <-> bg (getUrgencyColor tr) = "bg-orange-500") /\
  (getSearchRadius tr = 10000%Z <-> bg (getUrgencyColor tr) = "bg-green-500") /\
  (forall st s, render tr st = MapScreen s ->
                emergencyBanner s = is_emergency tr /\
                urgencyColors s = getUrgencyColor tr) /\
  (forall p, keepPlace tr p = false -> is_emergency tr = true).
Proof.
  assert (R : forall st s, render tr st = MapScreen s ->
                           emergencyBanner s = is_emergency tr /\
                           urgencyColors s = getUrgencyColor tr).
  { intros st s H. destruct tr; [|discriminate]. injection H as <-. now split. }
  assert (K : forall p, keepPlace tr p = false -> is_emergency tr = true).
  { intros p. unfold keepPlace. now destruct (is_emergency tr). }
  split; [|split; [|split; [|split; [|split; [exact R|exact K]]]]];
    clear R K; unfold is_emergency, getSearchRadius, getUrgencyColor;
    destruct (urgency_of tr) as [u|];
    try destruct (String.eqb u "emergency"); try destruct (String.eqb u "urgent");
    simpl; split; intro H; first [reflexivity|discriminate H].
Qed.

End Invariants.

(** ** The distance floor of the score *)

Module Floor.
Import JS TriageMapRouter Spec Examples FloatFacts.
Local Open Scope float_scope.

(** X21: below the floor of 0.1 km the distance no longer counts: every
    candidate nearer than that (at distance zero too) has the distance term
    50, so its score is 50 plus its rating term plus its bonus. *)
Theorem score_at_floor (p : PlaceResult) (d : float) :
  is_nan d = false -> (d <? tenth) = true ->
  calculateScore p d = 50 + ratingOrDefault p + popularityBonus p.
Proof.
  intros N L. unfold calculateScore. fold tenth.
  rewrite (Scoring.Math_max_tenth d N), L.
  now rewrite Scoring.ratingOrDefault_eq, Scoring.popularityBonus_eq.
Qed.

End Floor.

(** ** Instances

    The statements above that carry a hypothesis, applied to the sample
    data. *)

Module Instances.
Import JS TriageMapRouter Spec Examples.
Local Open Scope float_scope.


Lemma failed_directions_keep_state_witness :
  routeInfo (fst (showDirections noRoute (facility "A" 5 None) readyState))
  = routeInfo readyState /\
  selectedPlace (fst (showDirections noRoute (facility "A" 5 None) readyState))
  = selectedPlace readyState /\
  snd (showDirections noRoute (facility "A" 5 None) readyState) = Normal.
Proof.
  destruct (Directions.failed_directions_keep_state noRoute
              (facility "A" 5 None) readyState
              {| origin := delhi; destination := {| lat := 0; lng := 0 |} |}
              eq_refl ltac:(discriminate))
    as (C & R & S & _).
  split; [exact R|]. split; [exact S|exact C].
Defined.

Lemma enrichment_frame_witness :
  exists q,
    In q (initialScored (M := smallAngle) noida routine [hospital "A"; hospital "B"]) /\
    place_id (place firstPlace) = place_id (place q) /\
    distance firstPlace = distance q /\
    score firstPlace = score q.
Proof.
  assert (H : In firstPlace (places searchedState))
    by (vm_compute; left; reflexivity).
  destruct (Ranking.enrichment_frame (M := smallAngle) noida routine
              hoursService [hospital "A"; hospital "B"]
              readyState firstPlace H)
    as (q & Hq & Hid & _ & _ & _ & _ & _ & Hd & Hs & _).
  exists q. repeat split; assumption.
Defined.

End Instances.

(** ** Further instances *)

Module MoreInstances.
Import JS TriageMapRouter Spec Examples.
Local Open Scope float_scope.

Lemma distances_from_user_location_witness :
  userLocation (firstMount (M := smallAngle) deniedBrowser (Some routineResult) searchService)
  = Some defaultLocation /\
  error (firstMount (M := smallAngle) deniedBrowser (Some routineResult) searchService) = None.
Proof.
  assert (H : In firstListed
                (places (firstMount (M := smallAngle) deniedBrowser
                           (Some routineResult) searchService)))
    by (vm_compute; left; reflexivity).
  destruct (Startup.distances_from_user_location smallAngle deniedBrowser routineResult
              searchService firstListed H) as (U & E & _).
  split; [exact U|exact E].
Defined.

Lemma no_triage_no_search_witness :
  render (Maps None) readyState = NoTriagePrompt /\
  searchEffect (M := smallAngle) true true (Maps None) searchService readyState = readyState.
Proof.
  destruct (Startup.no_triage_no_search smallAngle None eq_refl) as (R & S & _).
  split; [exact (R readyState)|exact (S true true searchService readyState)].
Defined.

Lemma text_search_first_witness :
  searchEffect (M := smallAngle) true true (Some routineResult) searchService
    (searchingState deniedBrowser)
  = processResults (M := smallAngle) defaultLocation (Some routineResult) searchService
      [hospital "A"; hospital "B"; hospital "C"]
      (set_mapInstance true (searchingState deniedBrowser)).
Proof.
  exact (proj1 (Startup.text_search_first smallAngle defaultLocation routineResult
                  searchService (searchingState deniedBrowser) eq_refl)
               eq_refl (nearbySearch searchService)).
Defined.

Lemma stored_ids_distinct_witness :
  NoDup (ids (places (processResults (M := smallAngle) noida routine hoursService
                        [hospital "A"; hospital "B"] readyState))).
Proof.
  apply (Listing.stored_ids_distinct smallAngle).
  simpl. repeat constructor; simpl; intuition discriminate.
Defined.

Lemma markers_of_searches_witness :
  places (runTurns (M := smallAngle) (overlapped routineRun emergencyRun) readyState)
  = places (alone (M := smallAngle) emergencyRun readyState) /\
  map marker_label
      (markers (runTurns (M := smallAngle) (overlapped routineRun emergencyRun) readyState))
  = [1; 2; 1; 2; 3]%nat.
Proof.
  assert (P1 : awaitsLookups (M := smallAngle) routineRun = true)
    by (vm_compute; reflexivity).
  assert (P2 : awaitsLookups (M := smallAngle) emergencyRun = true)
    by (vm_compute; reflexivity).
  destruct (Listing.markers_of_searches smallAngle) as (_ & _ & O & _).
  destruct (O routineRun emergencyRun readyState P1 P2) as (P & _ & L).
  split; [exact P|]. rewrite L. vm_compute. reflexivity.
Defined.

Lemma emergency_open_then_unknown_witness :
  exists opens unknowns,
    finalPlaces emergency
      [facility "A" 5 (Some false); facility "B" 5 None; facility "C" 5 (Some true)]
    = opens ++ unknowns /\
    Forall (fun p => isOpen p = Some true) opens /\
    Forall (fun p => isOpen p = None) unknowns.
Proof.
  exact (Listing.emergency_open_then_unknown emergency _ eq_refl).
Defined.

Lemma known_statuses_open_first_witness :
  split_by_class isOpen_true
    (finalPlaces routine [facility "A" 5 (Some false); facility "C" 4 (Some true)]).
Proof.
  apply Listing.known_statuses_open_first. repeat constructor.
Defined.

Lemma emergency_all_closed_blank_witness :
  places (processResults (M := smallAngle) noida emergency closedService
            [hospital "A"; hospital "B"; hospital "C"] initialState) = [].
Proof.
  assert (C : all_closed closedService).
  { intros i id. split; [reflexivity|]. eexists. eexists. repeat split. }
  exact (proj1 (Listing.emergency_all_closed_blank smallAngle noida emergency closedService
                  [hospital "A"; hospital "B"; hospital "C"] initialState eq_refl C)).
Defined.

Lemma failed_lookups_keep_ranking_witness :
  Forall (fun p => isOpen p = None)
         (places (processResults (M := smallAngle) noida emergency failingService
                    [hospital "A"; hospital "B"; hospital "C"] initialState)).
Proof.
  assert (F : lookups_fail failingService) by (intros i id; now right).
  exact (proj1 (proj2 (Listing.failed_lookups_keep_ranking smallAngle noida emergency
                         failingService [hospital "A"; hospital "B"; hospital "C"]
                         initialState F))).
Defined.

Lemma listed_places_routable_witness :
  exists loc,
    geometry (place firstListed) = Some loc /\
    requestFor (firstMount (M := smallAngle) deniedBrowser (Some routineResult) searchService)
               firstListed
    = Some {| origin := defaultLocation; destination := loc |}.
Proof.
  assert (H : In firstListed
                (places (firstMount (M := smallAngle) deniedBrowser
                           (Some routineResult) searchService)))
    by (vm_compute; left; reflexivity).
  exact (Startup.listed_places_routable smallAngle deniedBrowser routineResult
           searchService firstListed H).
Defined.

Lemma directions_from_first_leg_witness :
  routeInfo (fst (showDirections routeFound (facility "A" 5 None) readyState))
  = Some (infoOf oneLeg) /\
  selectedPlace (fst (showDirections routeFound (facility "A" 5 None) readyState))
  = Some (facility "A" 5 None).
Proof.
  destruct (Routing.directions_from_first_leg routeFound (facility "A" 5 None) readyState
              {| origin := delhi; destination := {| lat := 0; lng := 0 |} |}
              oneRoute {| legs := [oneLeg] |} [] oneLeg []
              eq_refl eq_refl eq_refl eq_refl)
    as (_ & R & _ & _ & S & _).
  split; [exact R|exact S].
Defined.

Lemma directions_without_route_witness :
  snd (showDirections routeless (facility "A" 5 None) readyState) = TypeError /\
  routeInfo (fst (showDirections routeless (facility "A" 5 None) readyState))
  = routeInfo readyState /\
  selectedPlace (fst (showDirections routeless (facility "A" 5 None) readyState))
  = Some (facility "A" 5 None).
Proof.
  destruct (Routing.directions_without_route routeless (facility "A" 5 None) readyState
              {| origin := delhi; destination := {| lat := 0; lng := 0 |} |}
              eq_refl eq_refl eq_refl)
    as (C & R & S & _).
  split; [exact C|]. split; [exact R|exact S].
Defined.

Lemma selection_keeps_route_witness :
  routeInfo (selectPlace (facility "C" 4 (Some true))
               (fst (showDirections routeFound (facility "A" 5 None) readyState)))
  = Some (infoOf oneLeg) /\
  selectedPlace (selectPlace (facility "C" 4 (Some true))
                   (fst (showDirections routeFound (facility "A" 5 None) readyState)))
  = Some (facility "C" 4 (Some true)).
Proof.
  destruct (Routing.selection_keeps_route routine routeFound (facility "A" 5 None)
              (facility "C" 4 (Some true)) readyState
              {| origin := delhi; destination := {| lat := 0; lng := 0 |} |}
              oneRoute {| legs := [oneLeg] |} [] oneLeg []
              eq_refl eq_refl eq_refl eq_refl)
    as (R & S & _).
  split; [exact R|exact S].
Defined.

Lemma error_never_cleared_witness :
  error (clearDirections erroredState) = error erroredState /\
  error (searchEffect (M := smallAngle) true true (Some routineResult) searchService
           erroredState) <> None.
Proof.
  assert (N : error erroredState <> None) by discriminate.
  destruct (Invariants.error_never_cleared smallAngle erroredState N)
    as (_ & S & _ & _ & C & _).
  split; [exact C|exact (S true true (Some routineResult) searchService)].
Defined.

Lemma score_at_floor_witness :
  calculateScore (placeRated (Some 4) None) 0 = 50 + 4 + 0.
Proof.
  exact (Floor.score_at_floor (placeRated (Some 4) None) 0 eq_refl eq_refl).
Defined.

End MoreInstances.
